(** * Fliplet AI chatbot: backend client, tool dispatcher and agent loop

    A shallow embedding of [fliplet-api.js], [tools.js] and [server.js].

    - JSON payloads are an inductive type; the few non-JSON JavaScript values
      the code can observe ([undefined], built-in prototype methods) are added
      on top of it in [Value].
    - Asynchronous, effectful code is written in a state-and-exception monad
      over a [World]: the world holds the two external collaborators as
      oracles (the HTTP backend answering [fetch], the language model
      answering a request) together with the chronological trace of the
      effects performed so far.  Every [await] in the source is sequential, so
      promises are run to completion in program order.
    - JavaScript strings are modelled by [string]; [slice] and [length] count
      characters of that type. *)

From Stdlib Require Import String Ascii List ZArith QArith Bool Lia DecimalString.
Import ListNotations.
Close Scope Q_scope.
Open Scope string_scope.
Open Scope list_scope.

Set Implicit Arguments.
Set Warnings "-register-all".

(* ------------------------------------------------------------------------- *)
(** ** JavaScript values *)

Module JS.

(** A value produced by [JSON.parse] / [res.json()]. An object is the list of
    its own properties in insertion order (keys of a parsed object are
    distinct). *)
Inductive JSON : Type :=
| JNull
| JBool (b : bool)
| JNum (q : Q)
| JStr (s : string)
| JArr (items : list JSON)
| JObj (members : list (string * JSON)).

(** What a property read can yield: [undefined], a JSON value, or a built-in
    method found on a prototype (only its [length], the number of declared
    parameters, is observable here). *)
Inductive Value : Type :=
| Undefined
| Json (j : JSON)
| Builtin (name : string) (arity : nat).

(** Thrown values are always [Error] objects; [err_message] is
    [err.message]. *)
Inductive Exn : Type :=
| Error (message : string)
| TypeError (message : string)
| SyntaxError (message : string).

Definition err_message (e : Exn) : string :=
  match e with
  | Error m | TypeError m | SyntaxError m => m
  end.

(** The result of evaluating code that may throw (a settled promise, for
    asynchronous code). *)
Inductive Outcome (A : Type) : Type :=
| Normal (a : A)
| Throw (e : Exn).
Arguments Normal {A} a.
Arguments Throw {A} e.

(** ToBoolean. *)
Definition truthy (v : Value) : bool :=
  match v with
  | Undefined => false
  | Json JNull => false
  | Json (JBool b) => b
  | Json (JNum q) => negb (Qeq_bool q 0)
  | Json (JStr s) => negb (s =? "")
  | Json (JArr _) => true
  | Json (JObj _) => true
  | Builtin _ _ => true
  end.

(** [a || b] *)
Definition or_else (a b : Value) : Value := if truthy a then a else b.

(** Own property of a parsed object. *)
Fixpoint own (members : list (string * JSON)) (k : string) : Value :=
  match members with
  | [] => Undefined
  | (k', v) :: rest => if k' =? k then Json v else own rest k
  end.

Definition number (n : nat) : JSON := JNum (inject_Z (Z.of_nat n)).

(** Decimal rendering of a non-negative integer, as a template literal does
    for [${n}]. *)
Definition decimal (n : nat) : string := NilZero.string_of_uint (Nat.to_uint n).
Definition decimalZ (z : Z) : string := NilZero.string_of_int (Z.to_int z).

(** Built-in operations of the language that are not embedded: they are
    parameters of the development.
    - [ToString v] is the string a template literal substitutes for [${v}]
      (it throws on an object that cannot be converted to a primitive);
    - [JSON_stringify] is [JSON.stringify];
    - [coerced_le v q] is the relational comparison [v <= q] for a [v] that is
      a string, an array or an object, which goes through ToPrimitive and
      ToNumber;
    - [type_error_message what] is the message the engine gives to the
      [TypeError] it raises for the failed operation [what]. *)
Class Engine : Type := {
  ToString : Value -> Outcome string;
  JSON_stringify : JSON -> string;
  coerced_le : JSON -> Q -> Outcome bool;
  type_error_message : string -> string
}.

(** A [TypeError] raised by the engine, not by a [throw] of the source. *)
Definition engine_TypeError {engine : Engine} (what : string) : Exn :=
  TypeError (type_error_message what).

End JS.
Import JS.

(* ------------------------------------------------------------------------- *)
(** ** Data model of a conversation *)

Inductive Role : Type := user | assistant.

(** Content blocks. A [tool_result] block carries [is_error: true] only when
    the dispatch failed; the field is absent otherwise. Block types the loop
    does not inspect are kept as [other_block]. *)
Inductive Block : Type :=
| text_block (text : string)
| tool_use (id : string) (name : string) (input : JSON)
| tool_result (tool_use_id : string) (content : string) (is_error : bool)
| other_block (type : string).

Inductive Content : Type :=
| plain (text : string)
| blocks (bs : list Block).

Record Message : Type := { role : Role; content : Content }.

(** The assembled message a model request resolves to. *)
Record ModelResponse : Type := {
  response_content : list Block;
  stop_reason : string
}.

(** One model request, as the external service answers it: the text fragments
    a streaming request delivers, then the final message (or a failure of the
    request). A blocking request resolves to the same final message. *)
Record ModelOutcome : Type := {
  fragments : list string;
  final : Outcome ModelResponse
}.

(** Events handed to the [onEvent] callback. *)
Inductive Event : Type :=
| text_delta (text : string)
| tool_start (name : string) (input : JSON).

(** Server-sent events written by the streaming endpoint. *)
Inductive SSE : Type :=
| sse_delta (text : string)
| sse_tool (name : string) (input : JSON)
| sse_done (reply : string) (history : list Message)
| sse_error (message : string).

(* ------------------------------------------------------------------------- *)
(** ** The world: external collaborators and effects *)

(** A [Response] of the fetch API. [text] is [None] when [res.text()] rejects;
    [json] is the settled [res.json()] promise. *)
Record Response : Type := {
  status : Z;
  statusText : string;
  text : option string;
  json : Outcome JSON
}.

(** [res.ok]: the status is in the range 200-299. *)
Definition ok (res : Response) : bool :=
  ((200 <=? status res) && (status res <=? 299))%Z.

Inductive FetchOutcome : Type :=
| rejects (e : Exn)          (* network-level failure *)
| responds (res : Response).

Inductive Effect : Type :=
| Fetch (url : string)
| Sleep (ms : Z)
| ModelCall (streaming : bool) (messages : list Message)
| Send (ev : SSE).

(** [backend n url] answers the [n]-th [fetch] of the process, [model n msgs]
    the [n]-th model request. [trace] is chronological. *)
Record World : Type := {
  backend : nat -> string -> FetchOutcome;
  model : nat -> list Message -> ModelOutcome;
  fetches : nat;
  requests : nat;
  trace : list Effect
}.

Definition M (A : Type) : Type := World -> Outcome A * World.

Definition ret {A} (a : A) : M A := fun w => (Normal a, w).

Definition throw {A} (e : Exn) : M A := fun w => (Throw e, w).

Definition bind {A B} (c : M A) (k : A -> M B) : M B :=
  fun w =>
    match c w with
    | (Normal a, w') => k a w'
    | (Throw e, w') => (Throw e, w')
    end.

(** [try { c } catch (err) { h err }] *)
Definition try_catch {A} (c : M A) (h : Exn -> M A) : M A :=
  fun w =>
    match c w with
    | (Normal a, w') => (Normal a, w')
    | (Throw e, w') => h e w'
    end.

(** Awaiting an already settled promise. *)
Definition settle {A} (o : Outcome A) : M A := fun w => (o, w).

Declare Scope js_scope.
Delimit Scope js_scope with js.
Notation "x <- c1 ;; c2" := (bind c1 (fun x => c2))
  (at level 100, c1 at next level, right associativity) : js_scope.
Notation "c1 ;; c2" := (bind c1 (fun _ => c2))
  (at level 100, right associativity) : js_scope.
Open Scope js_scope.

Definition record (e : Effect) (w : World) : World :=
  {| backend := backend w; model := model w;
     fetches := fetches w; requests := requests w;
     trace := trace w ++ [e] |}.

Definition perform (e : Effect) : M unit := fun w => (Normal tt, record e w).

Definition sleep (ms : Z) : M unit := perform (Sleep ms).

Definition fetch (url : string) : M Response :=
  fun w =>
    let w' := {| backend := backend w; model := model w;
                 fetches := S (fetches w); requests := requests w;
                 trace := trace w ++ [Fetch url] |} in
    match backend w (fetches w) url with
    | rejects e => (Throw e, w')
    | responds res => (Normal res, w')
    end.

(** Issue the [n]-th model request; the oracle's answer is returned whole. *)
Definition request (streaming : bool) (messages : list Message) : M ModelOutcome :=
  fun w =>
    (Normal (model w (requests w) messages),
     {| backend := backend w; model := model w;
        fetches := fetches w; requests := S (requests w);
        trace := trace w ++ [ModelCall streaming messages] |}).

(** [for (const x of xs) await f(x)] *)
Fixpoint for_each {A} (f : A -> M unit) (xs : list A) : M unit :=
  match xs with
  | [] => ret tt
  | x :: rest => f x ;; for_each f rest
  end.

(* ------------------------------------------------------------------------- *)
(** ** fliplet-api.js: the backend client *)

Module FlipletAPI.
Section Client.
Context {engine : Engine}.

Definition BASE : string := "https://api.fliplet.com".
Definition MAX_RETRIES : nat := 3.
Definition RETRY_BASE_MS : Z := 500.
Definition MAX_ENTRIES : nat := 50.

(** How one iteration of the retry loop ends: the loop goes on with a new
    [lastErr], or the function returns the (un-awaited) promise [res.json()],
    whose rejection is therefore not seen by the [catch]. *)
Inductive Iteration : Type :=
| next_attempt (lastErr : Exn)
| returned (promise : Outcome JSON).

Definition backoff (attempt : nat) : Z := (RETRY_BASE_MS * 2 ^ Z.of_nat attempt)%Z.

(** The error thrown for a response that is not [ok]:
    [`${res.status} ${res.statusText} — ${body.slice(0, 200)}`], where [body]
    is the response text, or the empty string when reading it fails. *)
Definition status_error (res : Response) : Exn :=
  let body := match text res with Some b => b | None => "" end in
  Error (decimalZ (status res) ++ " " ++ statusText res ++ " — " ++ substring 0 200 body).

(** The body of the [for] loop of [get]: everything between [try {] and the
    end of the [catch] block. *)
Definition attempt_body (path : string) (attempt : nat) : M Iteration :=
  try_catch
    (res <- fetch (BASE ++ path) ;;
     if (status res =? 429)%Z then
       sleep (backoff attempt) ;;
       ret (next_attempt (Error ("429 Rate Limited on " ++ path)))
     else if negb (ok res) then
       throw (status_error res)
     else
       ret (returned (json res)))
    (fun err =>
       (if (attempt <? MAX_RETRIES - 1)%nat then sleep (backoff attempt) else ret tt) ;;
       ret (next_attempt err)).

(** [remaining] is [MAX_RETRIES - attempt]. *)
Fixpoint get_loop (remaining attempt : nat) (lastErr : Exn) (path : string) : M JSON :=
  match remaining with
  | O => throw lastErr
  | S remaining' =>
      it <- attempt_body path attempt ;;
      match it with
      | next_attempt e => get_loop remaining' (S attempt) e path
      | returned promise => settle promise
      end
  end.

Definition get (path : string) : M JSON :=
  get_loop MAX_RETRIES 0
    (Error ("Failed after " ++ decimal MAX_RETRIES ++ " attempts: " ++ path)) path.

(** [data?.entries]. On an array the read finds the built-in method
    [Array.prototype.entries], a function declaring no parameter; no other
    prototype of a parsed value has a member of that name. *)
Definition member_entries (data : JSON) : Value :=
  match data with
  | JObj members => own members "entries"
  | JArr _ => Builtin "entries" 0
  | _ => Undefined
  end.

(** [data?.rows]: no prototype has a member of that name. *)
Definition member_rows (data : JSON) : Value :=
  match data with
  | JObj members => own members "rows"
  | _ => Undefined
  end.

(** [Array.isArray(data) ? data : null] *)
Definition bare_list (data : JSON) : Value :=
  match data with
  | JArr _ => Json data
  | _ => Json JNull
  end.

(** [entries.length], for a truthy [entries]. *)
Definition length_of (entries : Value) : Value :=
  match entries with
  | Json (JArr items) => Json (number (length items))
  | Json (JStr s) => Json (number (String.length s))
  | Json (JObj members) => own members "length"
  | Builtin _ arity => Json (number arity)
  | _ => Undefined
  end.

(** [x <= MAX_ENTRIES]: [undefined] converts to NaN, [null] and booleans to 0
    or 1, a function to NaN. *)
Definition le_MAX_ENTRIES (x : Value) : Outcome bool :=
  match x with
  | Undefined => Normal false
  | Json (JNum q) => Normal (Qle_bool q (inject_Z (Z.of_nat MAX_ENTRIES)))
  | Json JNull => Normal true
  | Json (JBool _) => Normal true
  | Json j => coerced_le j (inject_Z (Z.of_nat MAX_ENTRIES))
  | Builtin _ _ => Normal false
  end.

(** [entries.slice(0, MAX_ENTRIES)]: defined on arrays and strings only. *)
Definition slice_sample (entries : Value) : Outcome JSON :=
  match entries with
  | Json (JArr items) => Normal (JArr (firstn MAX_ENTRIES items))
  | Json (JStr s) => Normal (JStr (substring 0 MAX_ENTRIES s))
  | _ => Throw (engine_TypeError "entries.slice is not a function")
  end.

Definition note (total : nat) : string :=
  "Showing first " ++ decimal MAX_ENTRIES ++ " of " ++ decimal total
  ++ " entries. Ask the user if they need more.".

Definition truncated_payload (total : Value) (note_text : string) (sample : JSON) : JSON :=
  JObj [ ("_truncated", JBool true);
         ("_totalCount", match total with Json n => n | _ => JNull end);
         ("_shownCount", number MAX_ENTRIES);
         ("_note", JStr note_text);
         ("entries", sample) ].

(** The number a template literal prints for [entries.length] when [entries]
    has a [slice] method. *)
Definition count_of (entries : Value) : nat :=
  match entries with
  | Json (JArr items) => length items
  | Json (JStr s) => String.length s
  | _ => 0
  end.

Definition truncateEntries (data : JSON) : Outcome JSON :=
  let entries := or_else (or_else (member_entries data) (member_rows data)) (bare_list data) in
  if negb (truthy entries) then Normal data
  else
    match le_MAX_ENTRIES (length_of entries) with
    | Throw e => Throw e
    | Normal true => Normal data
    | Normal false =>
        match slice_sample entries with
        | Throw e => Throw e
        | Normal sample =>
            Normal (truncated_payload (length_of entries) (note (count_of entries)) sample)
        end
    end.

(** A path built by a template literal around one substituted value. *)
Definition path_of (prefix : string) (v : Value) (suffix : string) : M string :=
  s <- settle (ToString v) ;;
  ret (prefix ++ s ++ suffix)%string.

Definition getApp (id : Value) : M JSON :=
  p <- path_of "/v1/apps/" id "" ;; get p.

Definition listDataSources (appId : Value) : M JSON :=
  p <- path_of "/v1/data-sources?appId=" appId "" ;; get p.

Definition getDataSource (id : Value) : M JSON :=
  p <- path_of "/v1/data-sources/" id "" ;; get p.

Definition getDataSourceEntries (id : Value) : M JSON :=
  p <- path_of "/v1/data-sources/" id "/data" ;;
  data <- get p ;;
  settle (truncateEntries data).

Definition listMediaFolders (appId : Value) : M JSON :=
  p <- path_of "/v1/media/folders?appId=" appId "" ;; get p.

Definition getFolderFiles (folderId : Value) : M JSON :=
  p <- path_of "/v1/media/folders/" folderId "/files" ;; get p.

Definition getFile (id : Value) : M JSON :=
  p <- path_of "/v1/media/files/" id "" ;; get p.

End Client.
End FlipletAPI.

(* ------------------------------------------------------------------------- *)
(** ** tools.js: the tool catalog and the dispatcher *)

Module Tools.
Section Dispatcher.
Context {engine : Engine}.

Record Param : Type := { param_type : string; param_description : string }.

Record ToolDef : Type := {
  tool_name : string;
  description : string;
  properties : list (string * Param);
  required : list string
}.

Definition def (name descr : string) (props : list (string * Param))
    (req : list string) : ToolDef :=
  {| tool_name := name; description := descr; properties := props; required := req |}.

Definition num (desc : string) : Param :=
  {| param_type := "number"; param_description := desc |}.

Definition buildTools (appId : string) : list ToolDef :=
  [ def "get_app_info"
      ("Fetch app metadata (name, settings, pages, icon, etc.) for app " ++ appId ++ ".")
      [("app_id", num ("App ID. Defaults to " ++ appId ++ "."))] [];
    def "list_data_sources"
      ("List every data source attached to app " ++ appId ++ ": names, IDs, row counts.")
      [("app_id", num ("App ID. Defaults to " ++ appId ++ "."))] [];
    def "get_data_source"
      "Get full details of one data source — columns, hooks, access rules."
      [("data_source_id", num "Data source ID.")] ["data_source_id"];
    def "get_data_source_entries"
      "Fetch rows from a data source. Large results are auto-truncated to 50 rows."
      [("data_source_id", num "Data source ID.")] ["data_source_id"];
    def "list_media_folders"
      ("List media/file folders for app " ++ appId ++ ".")
      [("app_id", num ("App ID. Defaults to " ++ appId ++ "."))] [];
    def "get_folder_files"
      "List every file inside a media folder."
      [("folder_id", num "Folder ID.")] ["folder_id"];
    def "get_file_info"
      "Get metadata for a single file — URL, size, type, created date."
      [("file_id", num "File ID.")] ["file_id"] ].

(** [input[key]] for the four keys the dispatcher reads ([app_id],
    [data_source_id], [folder_id], [file_id]); no prototype defines them, so
    only own properties count. Reading a property of [null] throws. *)
Definition member (input : JSON) (key : string) : Outcome Value :=
  match input with
  | JNull =>
      Throw (engine_TypeError ("Cannot read properties of null (reading '" ++ key ++ "')"))
  | JObj members => Normal (own members key)
  | _ => Normal Undefined
  end.

(** The own keys of the [routes] object literal. *)
Inductive Route : Type :=
| get_app_info
| list_data_sources
| get_data_source
| get_data_source_entries
| list_media_folders
| get_folder_files
| get_file_info.

(** The members [routes] inherits from [Object.prototype]; each is a truthy
    value. *)
Definition Object_prototype : list string :=
  [ "constructor"; "__defineGetter__"; "__defineSetter__"; "hasOwnProperty";
    "__lookupGetter__"; "__lookupSetter__"; "isPrototypeOf";
    "propertyIsEnumerable"; "toString"; "valueOf"; "__proto__";
    "toLocaleString" ].

(** What [routes[name]] evaluates to when it is not [undefined]. *)
Inductive Handler : Type :=
| own_route (r : Route)
| inherited (member : string).

(** [routes[name]]; [None] is [undefined]. The property read consults the own
    keys first and then the prototype. *)
Definition routes (name : string) : option Handler :=
  if name =? "get_app_info" then Some (own_route get_app_info)
  else if name =? "list_data_sources" then Some (own_route list_data_sources)
  else if name =? "get_data_source" then Some (own_route get_data_source)
  else if name =? "get_data_source_entries" then Some (own_route get_data_source_entries)
  else if name =? "list_media_folders" then Some (own_route list_media_folders)
  else if name =? "get_folder_files" then Some (own_route get_folder_files)
  else if name =? "get_file_info" then Some (own_route get_file_info)
  else if existsb (String.eqb name) Object_prototype then Some (inherited name)
  else None.

(** [handler()] for an inherited member, called with no receiver and no
    argument: [Object()] makes an empty object, [toString] describes
    [undefined], [isPrototypeOf] answers [false] for a non-object argument,
    [__proto__] is the prototype object itself and is not callable, and the
    other methods fail converting their receiver to an object. *)
Definition call_inherited (member : string) : Outcome JSON :=
  if member =? "constructor" then Normal (JObj [])
  else if member =? "toString" then Normal (JStr "[object Undefined]")
  else if member =? "isPrototypeOf" then Normal (JBool false)
  else if member =? "__proto__" then Throw (engine_TypeError "handler is not a function")
  else Throw (engine_TypeError "Cannot convert undefined or null to object").

(** The arrow function stored under an own key of [routes]; [id(key)] is
    [input[key]]. *)
Definition run_route (r : Route) (input : JSON) (appId : Value) : M JSON :=
  match r with
  | get_app_info => FlipletAPI.getApp appId
  | list_data_sources => FlipletAPI.listDataSources appId
  | get_data_source =>
      id <- settle (member input "data_source_id") ;; FlipletAPI.getDataSource id
  | get_data_source_entries =>
      id <- settle (member input "data_source_id") ;; FlipletAPI.getDataSourceEntries id
  | list_media_folders => FlipletAPI.listMediaFolders appId
  | get_folder_files =>
      id <- settle (member input "folder_id") ;; FlipletAPI.getFolderFiles id
  | get_file_info =>
      id <- settle (member input "file_id") ;; FlipletAPI.getFile id
  end.

(** [executeTool(name, input, api, defaultAppId)]; [api] is the client of
    [FlipletAPI], acting on the world. *)
Definition executeTool (name : string) (input : JSON) (defaultAppId : string) : M JSON :=
  app_id <- settle (member input "app_id") ;;
  let appId := or_else app_id (Json (JStr defaultAppId)) in
  match routes name with
  | None => throw (Error ("Unknown tool: " ++ name))
  | Some (own_route r) => run_route r input appId
  | Some (inherited m) => settle (call_inherited m)
  end.

End Dispatcher.
End Tools.

(* ------------------------------------------------------------------------- *)
(** ** server.js: history trimming, the agent loop and the two endpoints *)

Module Server.
Section AgentLoop.
Context {engine : Engine}.

(** The configured default application identifier (a non-empty environment
    variable, checked at start-up). *)
Variable FLIPLET_APP_ID : string.

Definition MAX_TOOL_ROUNDS : nat := 10.
Definition MAX_HISTORY_MESSAGES : nat := 40.

Definition newline : string := String (ascii_of_nat 10) "".

(** [messages.slice(-MAX_HISTORY_MESSAGES)] when the list is longer. *)
Definition trimHistory (messages : list Message) : list Message :=
  if (length messages <=? MAX_HISTORY_MESSAGES)%nat then messages
  else skipn (length messages - MAX_HISTORY_MESSAGES) messages.

(** [anthropic.messages.create(...)] *)
Definition create (messages : list Message) : M ModelResponse :=
  o <- request false messages ;;
  settle (final o).

(** [streamedRequest]: every text fragment goes to the callback, then the
    final message is awaited. *)
Definition streamedRequest (messages : list Message) (onEvent : Event -> M unit)
    : M ModelResponse :=
  o <- request true messages ;;
  for_each (fun t => onEvent (text_delta t)) (fragments o) ;;
  settle (final o).

Definition is_text (b : Block) : bool :=
  match b with text_block _ => true | _ => false end.

Definition text_of (b : Block) : string :=
  match b with text_block t => t | _ => "" end.

(** [content.filter(b => b.type === 'text').map(b => b.text).join('\n')] *)
Definition reply_of (content : list Block) : string :=
  String.concat newline (map text_of (filter is_text content)).

Definition is_tool_use (b : Block) : bool :=
  match b with tool_use _ _ _ => true | _ => false end.

Definition notify (onEvent : option (Event -> M unit)) (ev : Event) : M unit :=
  match onEvent with
  | Some callback => callback ev
  | None => ret tt
  end.

(** The body of the loop over the tool-invocation blocks: the result pushed
    for one block. *)
Definition answer (onEvent : option (Event -> M unit)) (block : Block) : M (list Block) :=
  match block with
  | tool_use id name input =>
      notify onEvent (tool_start name input) ;;
      try_catch
        (result <- Tools.executeTool name input FLIPLET_APP_ID ;;
         ret [tool_result id (JSON_stringify result) false])
        (fun err =>
           ret [tool_result id
                  (JSON_stringify (JObj [("error", JStr (err_message err))])) true])
  | _ => ret []
  end.

(** [for (const block of ...) { ... toolResults.push(...) }] *)
Fixpoint run_tools (onEvent : option (Event -> M unit)) (pending : list Block)
    (toolResults : list Block) : M (list Block) :=
  match pending with
  | [] => ret toolResults
  | block :: rest =>
      pushed <- answer onEvent block ;;
      run_tools onEvent rest (toolResults ++ pushed)
  end.

Definition fallback_reply : string :=
  "Hit the tool-call limit. Try a more specific question.".

(** The [for] loop of [agentLoop], with [remaining = MAX_TOOL_ROUNDS - round]. *)
Fixpoint rounds (remaining : nat) (messages : list Message)
    (onEvent : option (Event -> M unit)) : M (string * list Message) :=
  match remaining with
  | O => ret (fallback_reply, messages)
  | S remaining' =>
      response <- match onEvent with
                  | Some callback => streamedRequest messages callback
                  | None => create messages
                  end ;;
      let messages :=
        messages ++ [{| role := assistant; content := blocks (response_content response) |}] in
      if stop_reason response =? "end_turn" then
        ret (reply_of (response_content response), messages)
      else if stop_reason response =? "tool_use" then
        toolResults <- run_tools onEvent (filter is_tool_use (response_content response)) [] ;;
        rounds remaining'
          (messages ++ [{| role := user; content := blocks toolResults |}]) onEvent
      else
        rounds remaining' messages onEvent
  end.

Definition agentLoop (messages : list Message) (onEvent : option (Event -> M unit))
    : M (string * list Message) :=
  rounds MAX_TOOL_ROUNDS messages onEvent.

(** What [POST /api/chat] answers. *)
Inductive ChatReply : Type :=
| chat_ok (reply : string) (history : list Message)
| chat_failed (http_status : Z) (error : string).

Definition user_message (text : string) : Message :=
  {| role := user; content := plain text |}.

(** [app.post('/api/chat', ...)]; an absent or empty [message] is falsy. *)
Definition api_chat (message : string) (history : list Message) : M ChatReply :=
  try_catch
    (if message =? "" then ret (chat_failed 400 "message is required")
     else
       let messages := trimHistory (history ++ [user_message message]) in
       r <- agentLoop messages None ;;
       ret (chat_ok (fst r) (snd r)))
    (fun err => ret (chat_failed 500 (err_message err))).

(** [send(event, data)] of the streaming endpoint. *)
Definition send (ev : SSE) : M unit := perform (Send ev).

(** The callback the streaming endpoint passes to [agentLoop]. *)
Definition sse_onEvent (ev : Event) : M unit :=
  match ev with
  | text_delta t => send (sse_delta t)
  | tool_start name input => send (sse_tool name input)
  end.

(** [app.post('/api/chat/stream', ...)]: [Some] is the 400 answer given before
    the stream is opened, [None] a stream that was written to the trace. *)
Definition api_chat_stream (message : string) (history : list Message)
    : M (option ChatReply) :=
  if message =? "" then ret (Some (chat_failed 400 "message is required"))
  else
    try_catch
      (let messages := trimHistory (history ++ [user_message message]) in
       r <- agentLoop messages (Some sse_onEvent) ;;
       send (sse_done (fst r) (snd r)))
      (fun err => send (sse_error (err_message err))) ;;
    ret None.

End AgentLoop.
End Server.

(* ------------------------------------------------------------------------- *)
(** ** Vocabulary of the statements *)

Definition is_fetch (e : Effect) : bool :=
  match e with Fetch _ => true | _ => false end.

Definition is_model_call (e : Effect) : bool :=
  match e with ModelCall _ _ => true | _ => false end.

(** [extends w w' es]: running from [w] to [w'] performed exactly the effects
    [es], in that order; the collaborators are unchanged and the counters
    advanced by the number of fetches and model requests among [es]. *)
Record extends (w w' : World) (es : list Effect) : Prop := {
  same_backend : backend w' = backend w;
  same_model : model w' = model w;
  more_trace : trace w' = trace w ++ es;
  more_fetches : fetches w' = fetches w + length (filter is_fetch es);
  more_requests : requests w' = requests w + length (filter is_model_call es)
}.

(** A response outside the range 200-299 that is not a rate limit. *)
Definition permanent (res : Response) : Prop :=
  ok res = false /\ status res <> 429%Z.

(** The effects of an attempt of [get] that ends in the [catch] block. *)
Definition caught_effects (path : string) (attempt : nat) : list Effect :=
  Fetch (FlipletAPI.BASE ++ path) ::
  (if (attempt <? FlipletAPI.MAX_RETRIES - 1)%nat
   then [Sleep (FlipletAPI.backoff attempt)] else []).

(** The payload that replaces a listing of [rows] after truncation. *)
Definition truncated (rows : list JSON) : JSON :=
  JObj [ ("_truncated", JBool true);
         ("_totalCount", number (length rows));
         ("_shownCount", number 50);
         ("_note", JStr (FlipletAPI.note (length rows)));
         ("entries", JArr (firstn 50 rows)) ].

(** Where the row collection of a listing sits, in the words of the
    specification: under the named field [entries], under the fallback field
    [rows] when [entries] is absent or falsy, or the payload is a bare
    list. *)
Inductive located : JSON -> list JSON -> Prop :=
| under_entries members rows :
    own members "entries" = Json (JArr rows) ->
    located (JObj members) rows
| under_rows members rows :
    truthy (own members "entries") = false ->
    own members "rows" = Json (JArr rows) ->
    located (JObj members) rows
| bare rows :
    located (JArr rows) rows.

(** The two ways the endpoints call [agentLoop]: without a callback
    (blocking) or with the callback that writes server-sent events. *)
Definition callback_of (streaming : bool) : option (Event -> M unit) :=
  if streaming then Some Server.sse_onEvent else None.

Definition assistant_message (response : ModelResponse) : Message :=
  {| role := assistant; content := blocks (response_content response) |}.

Definition tool_results_message (results : list Block) : Message :=
  {| role := user; content := blocks results |}.

(** The block pushed for an invocation whose dispatch settled as [o]. *)
Definition result_block {engine : Engine} (id : string) (o : Outcome JSON) : Block :=
  match o with
  | Normal result => tool_result id (JSON_stringify result) false
  | Throw err =>
      tool_result id (JSON_stringify (JObj [("error", JStr (err_message err))])) true
  end.

(** [answers invocation result]: [result] is a tool-result block carrying the
    identifier of [invocation], tagged either as a success (a serialised
    payload, no [is_error]) or as an error (a serialised [{error: message}]
    with [is_error: true]). *)
Definition answers {engine : Engine} (invocation result : Block) : Prop :=
  match invocation, result with
  | tool_use id _ _, tool_result id' content is_error =>
      id' = id
      /\ if is_error
         then exists msg, content = JSON_stringify (JObj [("error", JStr msg)])
         else exists payload, content = JSON_stringify payload
  | _, _ => False
  end.

(** The effects of one model request: the request itself and, when
    streaming, one [delta] event per text fragment. *)
Definition model_call_effects (streaming : bool) (messages : list Message)
    (o : ModelOutcome) : list Effect :=
  ModelCall streaming messages ::
  (if streaming then map (fun t => Send (sse_delta t)) (fragments o) else []).

(** The two messages a tool round appends: the assistant message and the
    user-role message answering each of its invocations, in order. *)
Definition round_pair {engine : Engine} (pair : list Message) : Prop :=
  exists response results,
    pair = [assistant_message response; tool_results_message results]
    /\ Forall2 answers (filter Server.is_tool_use (response_content response)) results.

(** Progress events of the streaming endpoint: text fragments and tool
    starts. *)
Definition is_progress (e : Effect) : bool :=
  match e with
  | Send (sse_delta _) | Send (sse_tool _ _) => true
  | _ => false
  end.

(** A model request seen without its mode. *)
Definition blocking_view (e : Effect) : Effect :=
  match e with
  | ModelCall _ messages => ModelCall false messages
  | _ => e
  end.

(** A trace with the progress events removed and the mode of the model
    requests forgotten. *)
Definition without_progress (es : list Effect) : list Effect :=
  map blocking_view (filter (fun e => negb (is_progress e)) es).

(** Two worlds that differ at most by progress events in the trace and by
    the mode of the model requests. *)
Record same_but_progress (wb ws : World) : Prop := {
  sbp_backend : backend ws = backend wb;
  sbp_model : model ws = model wb;
  sbp_fetches : fetches ws = fetches wb;
  sbp_requests : requests ws = requests wb;
  sbp_trace : without_progress (trace ws) = without_progress (trace wb)
}.

(** [agree cb cs]: run from worlds that differ at most by progress events,
    the blocking computation [cb] and the streaming computation [cs] settle
    the same way, in worlds that again differ at most by progress events. *)
Definition agree {A} (cb cs : M A) : Prop :=
  forall wb ws,
    same_but_progress wb ws ->
    fst (cb wb) = fst (cs ws) /\ same_but_progress (snd (cb wb)) (snd (cs ws)).

(** The terminal event the streaming endpoint writes for what the blocking
    endpoint answers. *)
Definition terminal_event (r : Server.ChatReply) : SSE :=
  match r with
  | Server.chat_ok reply history => sse_done reply history
  | Server.chat_failed _ error => sse_error error
  end.

(** [only allowed c]: whatever the world, [c] only appends effects satisfying
    [allowed] to the trace, and keeps the counters in step with them. *)
Definition only {A} (allowed : Effect -> bool) (c : M A) : Prop :=
  forall w, exists es, extends w (snd (c w)) es /\ forallb allowed es = true.

Definition any_effect (e : Effect) : bool := true.
Definition not_model_call (e : Effect) : bool := negb (is_model_call e).

(* ------------------------------------------------------------------------- *)
(** ** A reference engine and sample collaborators, to run the code on
       concrete inputs *)

Module Sample.

Definition quote : string := String (ascii_of_nat 34) "".

(** A plain renderer of JSON values (integers only, no escaping). *)
Fixpoint render (j : JSON) : string :=
  match j with
  | JNull => "null"
  | JBool b => if b then "true" else "false"
  | JNum q => decimalZ (Qnum q)
  | JStr s => quote ++ s ++ quote
  | JArr items => "[" ++ String.concat "," (map render items) ++ "]"
  | JObj members =>
      "{" ++ String.concat ","
               (map (fun kv => (quote ++ fst kv ++ quote ++ ":" ++ render (snd kv))%string)
                    members) ++ "}"
  end.

(** An engine to run examples with. Strings and integers are converted as
    JavaScript does; the conversions of other values are placeholders that no
    example exercises. *)
Definition engine : Engine := {|
  ToString := fun v =>
    match v with
    | Undefined => Normal "undefined"
    | Json (JStr s) => Normal s
    | Json j => Normal (render j)
    | Builtin _ _ => Normal "function"
    end;
  JSON_stringify := render;
  coerced_le := fun _ _ => Normal false;
  type_error_message := fun what => what
|}.

Definition not_found : Response :=
  {| status := 404; statusText := "Not Found"; text := Some "no such app";
     json := Throw (SyntaxError "Unexpected token") |}.

Definition rate_limited : Response :=
  {| status := 429; statusText := "Too Many Requests"; text := Some "";
     json := Throw (SyntaxError "Unexpected end of JSON input") |}.

Definition success (payload : JSON) : Response :=
  {| status := 200; statusText := "OK"; text := None; json := Normal payload |}.

Definition says (t : string) (reason : string) : ModelOutcome :=
  {| fragments := [t];
     final := Normal {| response_content := [text_block t]; stop_reason := reason |} |}.

Definition calls (id name : string) (input : JSON) (reason : string) : ModelOutcome :=
  {| fragments := [];
     final := Normal {| response_content := [tool_use id name input];
                        stop_reason := reason |} |}.

(** A fresh process with the given collaborators. *)
Definition start (b : nat -> string -> FetchOutcome)
    (m : nat -> list Message -> ModelOutcome) : World :=
  {| backend := b; model := m; fetches := 0; requests := 0; trace := [] |}.

Definition app : JSON := JObj [("id", number 123); ("name", JStr "Demo")].

(** 404 on the first request, 200 afterwards. *)
Definition flaky_backend (n : nat) (url : string) : FetchOutcome :=
  match n with
  | O => responds not_found
  | S _ => responds (success app)
  end.

Definition missing_backend (n : nat) (url : string) : FetchOutcome := responds not_found.
Definition busy_backend (n : nat) (url : string) : FetchOutcome := responds rate_limited.
Definition healthy_backend (n : nat) (url : string) : FetchOutcome := responds (success app).

Definition quiet_model (n : nat) (messages : list Message) : ModelOutcome :=
  says "Done." "end_turn".

Definition APP_ID : string := "123".

(** The model asks for the app information under the invocation identifier
    [toolu_n]. *)
Definition tool_call (n : nat) (reason : string) : ModelOutcome :=
  calls ("toolu_" ++ decimal n) "get_app_info" (JObj []) reason.

(** A model that never stops calling tools. *)
Definition looping_model (n : nat) (messages : list Message) : ModelOutcome :=
  tool_call n "tool_use".

(** A model that calls a tool on each of its first ten requests and gives a
    final answer afterwards. *)
Definition eager_model (n : nat) (messages : list Message) : ModelOutcome :=
  if (n <? 10)%nat then tool_call n "tool_use" else says "Done." "end_turn".

(** A model that calls one tool and then answers. *)
Definition one_tool_model (n : nat) (messages : list Message) : ModelOutcome :=
  match n with
  | O => tool_call 0 "tool_use"
  | S _ => says "Done." "end_turn"
  end.

(** A model whose first answer is cut off by the token limit right after an
    invocation block. *)
Definition cut_off_model (n : nat) (messages : list Message) : ModelOutcome :=
  match n with
  | O => tool_call 0 "max_tokens"
  | S _ => says "Done." "end_turn"
  end.

(** A model whose every answer is cut off by the token limit. *)
Definition wordy_model (n : nat) (messages : list Message) : ModelOutcome :=
  says "and furthermore" "max_tokens".

(** A caller that sends its questions one after the other to the blocking
    endpoint, each time with the history of the previous reply (what the
    command-line client does with the [done] event). *)
Fixpoint converse (questions : list string) (history : list Message) (w : World)
    : list Message * World :=
  match questions with
  | [] => (history, w)
  | q :: rest =>
      match Server.api_chat (engine := engine) APP_ID q history w with
      | (Normal (Server.chat_ok _ history'), w') => converse rest history' w'
      | (_, w') => (history, w')
      end
  end.

Definition question (n : nat) : string := "question " ++ decimal n.

Definition asks (n : nat) : Message := Server.user_message (question n).

Definition invokes (n : nat) : Message :=
  {| role := assistant;
     content := blocks [tool_use ("toolu_" ++ decimal n) "get_app_info" (JObj [])] |}.

Definition returns (n : nat) : Message :=
  {| role := user;
     content := blocks [tool_result ("toolu_" ++ decimal n) (render app) false] |}.

Definition concludes : Message :=
  {| role := assistant; content := blocks [text_block "Done."] |}.

(** The history a caller holds after a first turn that ran into the round
    limit (ten tool rounds) and ten further turns answered at once: 41
    messages. *)
Definition long_history : list Message :=
  asks 0
  :: flat_map (fun n => [invokes n; returns n]) (seq 0 10)
  ++ flat_map (fun n => [asks n; concludes]) (seq 1 10).

(** A listing of 51 rows, returned as a bare list. *)
Definition long_listing : list JSON := repeat (JObj [("id", number 1)]) 51.

Definition listing_backend (n : nat) (url : string) : FetchOutcome :=
  responds (success (JArr long_listing)).

End Sample.

(* ------------------------------------------------------------------------- *)
(** ** cli.js: the direct mode of the command-line client *)

Module Cli.
Section Direct.
Context {engine : Engine}.

(** The configured application identifier ([process.env.FLIPLET_APP_ID]). *)
Variable appId : string.

(** What a turn of the direct mode leaves behind: how [chatDirect] settled
    and the module-level [history] array, which keeps every push made before
    a failure. *)
Definition Turn : Type := World -> (Outcome unit * list Message) * World.

(** The ['text'] listener of the direct mode only writes to the terminal,
    which is not part of the world. *)
Definition print_text (ev : Event) : M unit := ret tt.

(** The [for] loop of [chatDirect], with [remaining = 10 - round]. Each
    request submits [history.slice(-40)]; the pushes go to the whole
    [history]. Terminal output and the spinner are not modelled. A model
    request is recorded by the message list it submits: the system prompt of
    the direct mode, which is not the server's, and the other fixed fields of
    the request are not represented, here as for the server. *)
Fixpoint direct_rounds (remaining : nat) (history : list Message) : Turn :=
  fun w =>
    match remaining with
    | O => ((Normal tt, history), w)
    | S remaining' =>
        match Server.streamedRequest (Server.trimHistory history) print_text w with
        | (Throw e, w1) => ((Throw e, history), w1)
        | (Normal response, w1) =>
            let history :=
              history ++ [{| role := assistant;
                             content := blocks (response_content response) |}] in
            if stop_reason response =? "end_turn" then ((Normal tt, history), w1)
            else if stop_reason response =? "tool_use" then
              match Server.run_tools appId None
                      (filter Server.is_tool_use (response_content response)) [] w1 with
              | (Throw e, w2) => ((Throw e, history), w2)
              | (Normal results, w2) =>
                  direct_rounds remaining'
                    (history ++ [{| role := user; content := blocks results |}]) w2
              end
            else direct_rounds remaining' history w1
        end
    end.

(** [chatDirect(message)], run on the current [history]. *)
Definition chatDirect (message : string) (history : list Message) : Turn :=
  direct_rounds 10 (history ++ [{| role := user; content := plain message |}]).

End Direct.
End Cli.

(* ------------------------------------------------------------------------- *)
(** ** Further vocabulary *)

(** The milliseconds slept among [es]. *)
Fixpoint total_sleep (es : list Effect) : Z :=
  match es with
  | [] => 0
  | Sleep ms :: rest => ms + total_sleep rest
  | _ :: rest => total_sleep rest
  end.

(** The effects of the client working on one URL: requests of that URL and
    pauses. *)
Definition client_effect (url : string) (e : Effect) : bool :=
  match e with
  | Fetch u => u =? url
  | Sleep _ => true
  | _ => false
  end.

(** The pauses the retry loop may take from [attempt] on, with [remaining]
    attempts left. *)
Fixpoint sleep_budget (remaining attempt : nat) : Z :=
  match remaining with
  | O => 0
  | S remaining' => FlipletAPI.backoff attempt + sleep_budget remaining' (S attempt)
  end.

(** An answer of the backend that is not a success: a network failure or a
    status outside 200-299 (429 included). *)
Definition failed (o : FetchOutcome) : Prop :=
  match o with
  | rejects _ => True
  | responds res => ok res = false
  end.

(** The error the retry loop remembers for a failed answer. *)
Definition attempt_error (path : string) (o : FetchOutcome) : Exn :=
  match o with
  | rejects e => e
  | responds res =>
      if (status res =? 429)%Z then Error ("429 Rate Limited on " ++ path)
      else FlipletAPI.status_error res
  end.

Definition is_send (e : Effect) : bool :=
  match e with Send _ => true | _ => false end.

(** The events that end a stream: [done] and [error]. *)
Definition is_terminal (e : Effect) : bool :=
  match e with
  | Send (sse_done _ _) | Send (sse_error _) => true
  | _ => false
  end.

Definition not_terminal (e : Effect) : bool := negb (is_terminal e).
Definition not_send (e : Effect) : bool := negb (is_send e).

(** Backend effects: requests and pauses. *)
Definition backend_effect (e : Effect) : bool :=
  match e with
  | Fetch _ | Sleep _ => true
  | _ => false
  end.

(** The endpoint table of the README ("Tools the LLM can call"): for each
    tool, the text before the identifier, the input field holding the
    identifier, and the text after it. *)
Definition documented_endpoint (name : string) : option (string * string * string) :=
  if name =? "get_app_info" then Some ("/v1/apps/", "app_id", "")
  else if name =? "list_data_sources" then Some ("/v1/data-sources?appId=", "app_id", "")
  else if name =? "get_data_source" then Some ("/v1/data-sources/", "data_source_id", "")
  else if name =? "get_data_source_entries" then
    Some ("/v1/data-sources/", "data_source_id", "/data")
  else if name =? "list_media_folders" then Some ("/v1/media/folders?appId=", "app_id", "")
  else if name =? "get_folder_files" then Some ("/v1/media/folders/", "folder_id", "/files")
  else if name =? "get_file_info" then Some ("/v1/media/files/", "file_id", "")
  else None.

(** The identifier a tool call designates: the input field, with the
    configured application as fallback for a falsy or absent [app_id]. *)
Definition designated (key : string) (members : list (string * JSON))
    (defaultAppId : string) : Value :=
  if key =? "app_id" then or_else (own members "app_id") (Json (JStr defaultAppId))
  else own members key.

(** [one_get c]: [c] stays within what a single [get] may do: backend
    effects only, at most three requests and 3500 ms of pauses. *)
Definition one_get {A} (c : M A) : Prop :=
  forall w, exists es,
    extends w (snd (c w)) es
    /\ forallb backend_effect es = true
    /\ length (filter is_fetch es) <= 3
    /\ (0 <= total_sleep es <= 3500)%Z.

(** Further sample collaborators. *)
Module Scenario.

(** A network failure, then a rate limit, then a missing resource. *)
Definition troubled_backend (n : nat) (url : string) : FetchOutcome :=
  match n with
  | 0 => rejects (TypeError "fetch failed")
  | 1 => responds Sample.rate_limited
  | _ => responds Sample.not_found
  end.

(** A model service that is down. *)
Definition failing_model (n : nat) (messages : list Message) : ModelOutcome :=
  {| fragments := []; final := Throw (Error "Overloaded") |}.

(** A listing of 51 rows under the fallback field. *)
Definition wrapped_listing : JSON := JObj [("rows", JArr Sample.long_listing)].

Definition wrapped_backend (n : nat) (url : string) : FetchOutcome :=
  responds (Sample.success wrapped_listing).

End Scenario.

(** [dispatched APP streaming invocations w results w']: starting in [w],
    the invocation blocks were dispatched one after the other, each announced
    to the callback and then run through [executeTool] in the world the
    previous one left; [results] holds, in order, the block pushed for each
    (the payload of the dispatch, or its error), and [w'] is the world
    after the last one. *)
Inductive dispatched {engine : Engine} (APP : string) (streaming : bool)
    : list Block -> World -> list Block -> World -> Prop :=
| dispatched_none w :
    dispatched APP streaming [] w [] w
| dispatched_next id name input rest w w0 results w' :
    Server.notify (callback_of streaming) (tool_start name input) w = (Normal tt, w0) ->
    dispatched APP streaming rest (snd (Tools.executeTool name input APP w0)) results w' ->
    dispatched APP streaming (tool_use id name input :: rest) w
      (result_block id (fst (Tools.executeTool name input APP w0)) :: results) w'.

(** [accumulated APP streaming messages w pairs w']: the pairs of messages
    that successive tool rounds append to [messages], starting in [w]. The
    assistant message of a pair is the answer of the model to the request on
    the conversation accumulated so far, and its user-role message holds the
    results of dispatching the invocation blocks of that answer. *)
Inductive accumulated {engine : Engine} (APP : string) (streaming : bool)
    : list Message -> World -> list (list Message) -> World -> Prop :=
| accumulated_none messages w :
    accumulated APP streaming messages w [] w
| accumulated_round messages w response w1 results w2 pairs w' :
    final (model w (requests w) messages) = Normal response ->
    extends w w1 (model_call_effects streaming messages (model w (requests w) messages)) ->
    dispatched APP streaming
      (filter Server.is_tool_use (response_content response)) w1 results w2 ->
    accumulated APP streaming
      (messages ++ [assistant_message response; tool_results_message results])
      w2 pairs w' ->
    accumulated APP streaming messages w
      ([assistant_message response; tool_results_message results] :: pairs) w'.

(** The [history] field of the body of a request, as far as the endpoint
    tells its values apart: absent ([undefined], for which the default [[]]
    applies), an array of messages, or a value that cannot be spread ([null],
    a number, a boolean, a plain object). *)
Inductive HistoryField : Type :=
| history_absent
| history_messages (messages : list Message)
| history_not_iterable.

(** [app.post('/api/chat', ...)] on such a body: the message is tested first,
    then [[...history, ...]] is evaluated, inside the [try]; spreading a
    value that is not iterable throws a [TypeError]. *)
Definition api_chat_request {engine : Engine} (APP : string) (message : string)
    (history : HistoryField) : M Server.ChatReply :=
  match history with
  | history_absent => Server.api_chat APP message []
  | history_messages messages => Server.api_chat APP message messages
  | history_not_iterable =>
      try_catch
        (if message =? "" then ret (Server.chat_failed 400 "message is required")
         else throw (engine_TypeError "history is not iterable"))
        (fun err => ret (Server.chat_failed 500 (err_message err)))
  end.

(** The keys of a parameter schema. *)
Definition declared (t : Tools.ToolDef) : list string :=
  map fst (Tools.properties t).

(* ------------------------------------------------------------------------- *)
(** ** Facts about the monad and about traces *)

Section MonadFacts.

Lemma bind_normal {A B} (c : M A) (k : A -> M B) w a w' :
  c w = (Normal a, w') -> bind c k w = k a w'.
Proof. intros H. unfold bind. now rewrite H. Qed.

Lemma bind_throw {A B} (c : M A) (k : A -> M B) w e w' :
  c w = (Throw e, w') -> bind c k w = (Throw e, w').
Proof. intros H. unfold bind. now rewrite H. Qed.

Lemma try_normal {A} (c : M A) h w a w' :
  c w = (Normal a, w') -> try_catch c h w = (Normal a, w').
Proof. intros H. unfold try_catch. now rewrite H. Qed.

Lemma try_throw {A} (c : M A) h w e w' :
  c w = (Throw e, w') -> try_catch c h w = h e w'.
Proof. intros H. unfold try_catch. now rewrite H. Qed.

Lemma extends_refl w : extends w w [].
Proof.
  split; simpl; auto.
  now rewrite app_nil_r.
Qed.

Lemma extends_trans w1 w2 w3 es1 es2 :
  extends w1 w2 es1 -> extends w2 w3 es2 -> extends w1 w3 (es1 ++ es2).
Proof.
  intros [b1 m1 t1 f1 r1] [b2 m2 t2 f2 r2].
  split.
  - congruence.
  - congruence.
  - rewrite t2, t1. now rewrite app_assoc.
  - rewrite f2, f1, filter_app, length_app. lia.
  - rewrite r2, r1, filter_app, length_app. lia.
Qed.

Lemma extends_perform e w :
  is_fetch e = false -> is_model_call e = false ->
  perform e w = (Normal tt, record e w) /\ extends w (record e w) [e].
Proof.
  intros Hf Hm. split; [reflexivity|].
  split; simpl; auto; rewrite ?Hf, ?Hm; simpl; lia.
Qed.

Lemma extends_sleep ms w :
  exists w', sleep ms w = (Normal tt, w') /\ extends w w' [Sleep ms].
Proof.
  exists (record (Sleep ms) w). now apply extends_perform.
Qed.

Lemma extends_fetch url w :
  exists w',
    fetch url w =
      (match backend w (fetches w) url with
       | rejects e => Throw e
       | responds res => Normal res
       end, w')
    /\ extends w w' [Fetch url].
Proof.
  unfold fetch.
  eexists. split.
  - destruct (backend w (fetches w) url); reflexivity.
  - split; simpl; auto; lia.
Qed.

Lemma extends_request streaming messages w :
  exists w',
    request streaming messages w = (Normal (model w (requests w) messages), w')
    /\ extends w w' [ModelCall streaming messages].
Proof.
  unfold request. eexists. split; [reflexivity|].
  split; simpl; auto; lia.
Qed.

Lemma only_ret {A} allowed (a : A) : only allowed (ret a).
Proof. intros w. exists []. split; [apply extends_refl | reflexivity]. Qed.

Lemma only_throw {A} allowed e : only allowed (@throw A e).
Proof. intros w. exists []. split; [apply extends_refl | reflexivity]. Qed.

Lemma only_settle {A} allowed (o : Outcome A) : only allowed (settle o).
Proof. intros w. exists []. split; [apply extends_refl | reflexivity]. Qed.

Lemma only_bind {A B} allowed (c : M A) (k : A -> M B) :
  only allowed c -> (forall a, only allowed (k a)) -> only allowed (bind c k).
Proof.
  intros Hc Hk w. unfold bind.
  destruct (Hc w) as (es1 & X1 & F1).
  destruct (c w) as [[a|e] w1]; simpl in X1.
  - destruct (Hk a w1) as (es2 & X2 & F2).
    exists (es1 ++ es2). split; [exact (extends_trans X1 X2)|].
    now rewrite forallb_app, F1, F2.
  - exists es1. now split.
Qed.

Lemma only_try {A} allowed (c : M A) h :
  only allowed c -> (forall e, only allowed (h e)) -> only allowed (try_catch c h).
Proof.
  intros Hc Hh w. unfold try_catch.
  destruct (Hc w) as (es1 & X1 & F1).
  destruct (c w) as [[a|e] w1]; simpl in X1.
  - exists es1. now split.
  - destruct (Hh e w1) as (es2 & X2 & F2).
    exists (es1 ++ es2). split; [exact (extends_trans X1 X2)|].
    now rewrite forallb_app, F1, F2.
Qed.

Lemma only_perform allowed e :
  is_fetch e = false -> is_model_call e = false -> allowed e = true ->
  only allowed (perform e).
Proof.
  intros Hf Hm Ha w. exists [e]. split.
  - now apply extends_perform.
  - simpl. now rewrite Ha.
Qed.

Lemma only_fetch allowed url :
  allowed (Fetch url) = true -> only allowed (fetch url).
Proof.
  intros Ha w. destruct (extends_fetch url w) as (w' & E & X).
  exists [Fetch url]. rewrite E. split; [exact X|]. simpl. now rewrite Ha.
Qed.

Lemma only_request allowed streaming messages :
  allowed (ModelCall streaming messages) = true ->
  only allowed (request streaming messages).
Proof.
  intros Ha w. destruct (extends_request streaming messages w) as (w' & E & X).
  exists [ModelCall streaming messages]. rewrite E. split; [exact X|].
  simpl. now rewrite Ha.
Qed.

Lemma only_for_each {A} allowed (f : A -> M unit) xs :
  (forall x, only allowed (f x)) -> only allowed (for_each f xs).
Proof.
  intros Hf. induction xs as [|x xs IH]; simpl.
  - apply only_ret.
  - apply only_bind; [apply Hf | intros _; exact IH].
Qed.

Lemma only_weaken {A} (strict allowed : Effect -> bool) (c : M A) :
  (forall e, strict e = true -> allowed e = true) ->
  only strict c -> only allowed c.
Proof.
  intros Hi Hc w. destruct (Hc w) as (es & X & F).
  exists es. split; [exact X|].
  rewrite forallb_forall in *. auto.
Qed.

(** Effects that are not model requests leave the request counter alone. *)
Lemma no_model_call es :
  forallb not_model_call es = true -> filter is_model_call es = [].
Proof.
  induction es as [|e es IH]; simpl; [reflexivity|].
  unfold not_model_call at 1. intros H. apply andb_prop in H as [He Hes].
  destruct (is_model_call e); [discriminate | auto].
Qed.

End MonadFacts.

(* ------------------------------------------------------------------------- *)
(** ** The backend client *)

Section ClientFacts.
Context {engine : Engine}.
Import FlipletAPI.

Lemma get_loop_step remaining attempt lastErr path w :
  get_loop (S remaining) attempt lastErr path w =
    match attempt_body path attempt w with
    | (Normal (next_attempt e), w') => get_loop remaining (S attempt) e path w'
    | (Normal (returned promise), w') => (promise, w')
    | (Throw e, w') => (Throw e, w')
    end.
Proof.
  simpl. unfold bind. destruct (attempt_body path attempt w) as [[[e|p]|e] w']; reflexivity.
Qed.

Lemma catch_block attempt err w :
  exists w',
    ((if (attempt <? MAX_RETRIES - 1)%nat then sleep (backoff attempt) else ret tt) ;;
     ret (next_attempt err)) w = (Normal (next_attempt err), w')
    /\ extends w w'
         (if (attempt <? MAX_RETRIES - 1)%nat then [Sleep (backoff attempt)] else []).
Proof.
  destruct (attempt <? MAX_RETRIES - 1)%nat.
  - destruct (extends_sleep (backoff attempt) w) as (w' & Hs & Hx).
    exists w'. split; [|exact Hx].
    now rewrite (bind_normal _ _ _ Hs).
  - exists w. split; [reflexivity | apply extends_refl].
Qed.

Lemma attempt_rate_limited path attempt w res :
  backend w (fetches w) (BASE ++ path) = responds res ->
  status res = 429%Z ->
  exists w',
    attempt_body path attempt w =
      (Normal (next_attempt (Error ("429 Rate Limited on " ++ path))), w')
    /\ extends w w' [Fetch (BASE ++ path); Sleep (backoff attempt)].
Proof.
  intros Hb Hs.
  destruct (extends_fetch (BASE ++ path) w) as (w1 & Hf & Hx1).
  rewrite Hb in Hf.
  destruct (extends_sleep (backoff attempt) w1) as (w2 & Hsl & Hx2).
  exists w2. split.
  - unfold attempt_body.
    apply try_normal.
    rewrite (bind_normal _ _ _ Hf).
    rewrite Hs. simpl.
    now rewrite (bind_normal _ _ _ Hsl).
  - exact (extends_trans Hx1 Hx2).
Qed.

Lemma attempt_permanent path attempt w res :
  backend w (fetches w) (BASE ++ path) = responds res ->
  permanent res ->
  exists w',
    attempt_body path attempt w = (Normal (next_attempt (status_error res)), w')
    /\ extends w w' (caught_effects path attempt).
Proof.
  intros Hb [Hok Hs].
  destruct (extends_fetch (BASE ++ path) w) as (w1 & Hf & Hx1).
  rewrite Hb in Hf.
  destruct (catch_block attempt (status_error res) w1) as (w2 & Hc & Hx2).
  exists w2. split.
  - unfold attempt_body.
    erewrite try_throw; [exact Hc|].
    rewrite (bind_normal _ _ _ Hf).
    apply Z.eqb_neq in Hs. rewrite Hs, Hok. reflexivity.
  - exact (extends_trans Hx1 Hx2).
Qed.

Lemma attempt_network_failure path attempt w e :
  backend w (fetches w) (BASE ++ path) = rejects e ->
  exists w',
    attempt_body path attempt w = (Normal (next_attempt e), w')
    /\ extends w w' (caught_effects path attempt).
Proof.
  intros Hb.
  destruct (extends_fetch (BASE ++ path) w) as (w1 & Hf & Hx1).
  rewrite Hb in Hf.
  destruct (catch_block attempt e w1) as (w2 & Hc & Hx2).
  exists w2. split.
  - unfold attempt_body.
    erewrite try_throw; [exact Hc|].
    now rewrite (bind_throw _ _ _ Hf).
  - exact (extends_trans Hx1 Hx2).
Qed.

Lemma attempt_ok path attempt w res :
  backend w (fetches w) (BASE ++ path) = responds res ->
  ok res = true ->
  exists w',
    attempt_body path attempt w = (Normal (returned (json res)), w')
    /\ extends w w' [Fetch (BASE ++ path)].
Proof.
  intros Hb Hok.
  destruct (extends_fetch (BASE ++ path) w) as (w1 & Hf & Hx1).
  rewrite Hb in Hf.
  exists w1. split; [|exact Hx1].
  unfold attempt_body. apply try_normal.
  rewrite (bind_normal _ _ _ Hf).
  assert (Hs : (status res =? 429)%Z = false).
  { unfold ok in Hok. apply andb_prop in Hok as [_ H]. apply Z.leb_le in H.
    apply Z.eqb_neq. lia. }
  rewrite Hs, Hok. reflexivity.
Qed.

Lemma next_fetch w w' es n :
  extends w w' es -> length (filter is_fetch es) = n ->
  backend w' (fetches w') = backend w (fetches w + n).
Proof.
  intros X Hn. now rewrite (same_backend X), (more_fetches X), Hn.
Qed.

(** C3 (amended). When the backend answers 429 to all three attempts, [get]
    fails after exactly three requests, each followed by its backoff delay
    (500, 1000 and 2000 ms), none of them successful. The error it fails with
    is the last observed one, "429 Rate Limited on <path>"; the
    "Failed after 3 attempts" error is only the initial value of [lastErr]
    and is not the one thrown. *)
Theorem get_rate_limited_on_every_attempt path w :
  (forall k, k < MAX_RETRIES ->
     exists res,
       backend w (fetches w + k) (BASE ++ path) = responds res
       /\ status res = 429%Z) ->
  exists w',
    get path w = (Throw (Error ("429 Rate Limited on " ++ path)), w')
    /\ extends w w'
         [Fetch (BASE ++ path); Sleep 500;
          Fetch (BASE ++ path); Sleep 1000;
          Fetch (BASE ++ path); Sleep 2000]
    /\ Error ("429 Rate Limited on " ++ path)
       <> Error ("Failed after 3 attempts: " ++ path).
Proof.
  intros H.
  destruct (H 0) as (r1 & H1 & S1); [unfold MAX_RETRIES; lia|].
  destruct (H 1) as (r2 & H2 & S2); [unfold MAX_RETRIES; lia|].
  destruct (H 2) as (r3 & H3 & S3); [unfold MAX_RETRIES; lia|].
  rewrite Nat.add_0_r in H1.
  destruct (attempt_rate_limited path 0 w H1 S1) as (w1 & E1 & X1).
  assert (B2 : backend w1 (fetches w1) (BASE ++ path) = responds r2).
  { rewrite (next_fetch X1 (n := 1)) by reflexivity. exact H2. }
  destruct (attempt_rate_limited path 1 w1 B2 S2) as (w2 & E2 & X2).
  pose proof (extends_trans X1 X2) as X12.
  assert (B3 : backend w2 (fetches w2) (BASE ++ path) = responds r3).
  { rewrite (next_fetch X12 (n := 2)) by reflexivity. exact H3. }
  destruct (attempt_rate_limited path 2 w2 B3 S3) as (w3 & E3 & X3).
  exists w3. split; [|split].
  - unfold get. change MAX_RETRIES with 3.
    rewrite get_loop_step, E1, get_loop_step, E2, get_loop_step, E3. reflexivity.
  - exact (extends_trans X12 X3).
  - simpl. discriminate.
Qed.

Lemma Qle_bool_inject a b : Qle_bool (inject_Z a) (inject_Z b) = (a <=? b)%Z.
Proof. unfold Qle_bool. simpl. now rewrite !Z.mul_1_r. Qed.

Lemma le_MAX_ENTRIES_number n :
  le_MAX_ENTRIES (Json (number n)) = Normal (n <=? MAX_ENTRIES)%nat.
Proof.
  unfold le_MAX_ENTRIES, number. rewrite Qle_bool_inject. f_equal.
  destruct (Nat.leb_spec n MAX_ENTRIES); [apply Z.leb_le | apply Z.leb_gt]; lia.
Qed.

(** A row collection found under [entries] or [rows] is what the function
    works on. *)
Lemma truncateEntries_on_rows data rows :
  or_else (or_else (member_entries data) (member_rows data)) (bare_list data)
    = Json (JArr rows) ->
  truncateEntries data =
    if (length rows <=? MAX_ENTRIES)%nat then Normal data
    else Normal (truncated rows).
Proof.
  intros E. unfold truncateEntries. rewrite E.
  change (length_of (Json (JArr rows))) with (Json (number (length rows))).
  rewrite le_MAX_ENTRIES_number.
  destruct (length rows <=? MAX_ENTRIES)%nat; reflexivity.
Qed.

(** A row collection found under [entries] or [rows] is what the function
    works on. *)
Lemma truncateEntries_wrapped members rows :
  located (JObj members) rows ->
  truncateEntries (JObj members) =
    if (length rows <=? MAX_ENTRIES)%nat then Normal (JObj members)
    else Normal (truncated rows).
Proof.
  intros L. apply truncateEntries_on_rows.
  inversion L as [ms r He | ms r Ht Hr | ]; subst;
    simpl member_entries; simpl member_rows; unfold or_else.
  - rewrite He. reflexivity.
  - rewrite Ht, Hr. reflexivity.
Qed.

(** On a bare list the read [data?.entries] finds the built-in method
    [entries] of arrays, a truthy value whose [length] is 0: the list is
    returned whole, whatever its length. *)
Lemma truncateEntries_bare_list rows :
  truncateEntries (JArr rows) = Normal (JArr rows).
Proof. reflexivity. Qed.

Lemma truncateEntries_passthrough data rows :
  located data rows -> length rows <= MAX_ENTRIES ->
  truncateEntries data = Normal data.
Proof.
  intros L Hn. destruct data; try (inversion L; fail).
  - apply truncateEntries_bare_list.
  - rewrite (truncateEntries_wrapped L).
    apply Nat.leb_le in Hn. now rewrite Hn.
Qed.

(** Rows wrapped under a field are capped to the first 50, in order, with the
    counts and the note attached. *)
Lemma truncateEntries_caps_wrapped_rows members rows :
  located (JObj members) rows -> MAX_ENTRIES < length rows ->
  truncateEntries (JObj members) = Normal (truncated rows).
Proof.
  intros L Hn. rewrite (truncateEntries_wrapped L).
  apply Nat.leb_gt in Hn. now rewrite Hn.
Qed.

(** C8. A row listing whose collection (under [entries], under the fallback
    [rows], or a bare list) has at most 50 entries is returned by
    [getDataSourceEntries] exactly as the backend gave it. *)
Theorem getDataSourceEntries_passthrough id p w data w' rows :
  ToString id = Normal p ->
  get ("/v1/data-sources/" ++ p ++ "/data") w = (Normal data, w') ->
  located data rows ->
  length rows <= MAX_ENTRIES ->
  getDataSourceEntries id w = (Normal data, w').
Proof.
  intros Hp Hg L Hn.
  unfold getDataSourceEntries, path_of.
  unfold bind at 1. unfold bind at 1. unfold settle at 1. rewrite Hp.
  unfold ret at 1.
  rewrite (bind_normal _ _ _ Hg).
  unfold settle. now rewrite (truncateEntries_passthrough L Hn).
Qed.

End ClientFacts.

(* ------------------------------------------------------------------------- *)
(** ** The dispatcher and the tool loop *)

Ltac only_step :=
  first
    [ apply only_ret | apply only_throw | apply only_settle
    | apply only_fetch; reflexivity
    | apply only_perform; reflexivity
    | apply only_bind; [| intros ?]
    | apply only_try; [| intros ?] ].

Section DispatchFacts.
Context {engine : Engine}.
Variable APP : string.
Import FlipletAPI Tools Server.

Lemma only_get path : only not_model_call (get path).
Proof.
  unfold get. generalize 0 as attempt.
  generalize (Error ("Failed after " ++ decimal MAX_RETRIES ++ " attempts: " ++ path)) as lastErr.
  induction MAX_RETRIES as [|remaining IH]; intros lastErr attempt; simpl.
  - apply only_throw.
  - apply only_bind.
    + unfold attempt_body, sleep. repeat only_step.
      * destruct (status a =? 429)%Z; [repeat only_step|].
        destruct (negb (ok a)); repeat only_step.
      * destruct (attempt <? _)%nat; repeat only_step.
    + intros [e|promise]; [apply IH | apply only_settle].
Qed.

Lemma only_executeTool name input : only not_model_call (executeTool name input APP).
Proof.
  unfold executeTool. only_step; [only_step|].
  destruct (routes name) as [[r|m]|]; [| only_step | only_step].
  destruct r; unfold run_route, getApp, listDataSources, getDataSource,
    getDataSourceEntries, listMediaFolders, getFolderFiles, getFile, path_of;
    repeat first [apply only_get | only_step].
Qed.

Lemma notify_runs streaming ev w :
  exists w',
    notify (callback_of streaming) ev w = (Normal tt, w')
    /\ extends w w'
         (if streaming
          then [Send match ev with
                     | text_delta t => sse_delta t
                     | tool_start name input => sse_tool name input
                     end]
          else []).
Proof.
  destruct streaming; simpl.
  - destruct ev; unfold sse_onEvent, send; eexists; apply extends_perform; reflexivity.
  - exists w. split; [reflexivity | apply extends_refl].
Qed.

(** One iteration of the tool loop: the callback is told, the tool is
    dispatched, and whatever the dispatch does, one result block is pushed. *)
Lemma answer_tool_use streaming id name input w :
  exists w0,
    notify (callback_of streaming) (tool_start name input) w = (Normal tt, w0)
    /\ answer APP (callback_of streaming) (tool_use id name input) w =
         (Normal [result_block id (fst (executeTool name input APP w0))],
          snd (executeTool name input APP w0)).
Proof.
  destruct (notify_runs streaming (tool_start name input) w) as (w0 & N & _).
  exists w0. split; [exact N|].
  unfold answer. rewrite (bind_normal _ _ _ N).
  unfold try_catch, bind.
  destruct (executeTool name input APP w0) as [[result|err] w1]; reflexivity.
Qed.

Lemma result_block_answers id name input o :
  answers (tool_use id name input) (result_block id o).
Proof.
  destruct o as [result|err]; simpl; split; eauto.
Qed.

Lemma only_answer streaming block :
  only not_model_call (answer APP (callback_of streaming) block).
Proof.
  destruct block; try apply only_ret.
  intros w.
  destruct (answer_tool_use streaming id name input w) as (w0 & N & E).
  destruct (notify_runs streaming (tool_start name input) w) as (w0' & N' & X0).
  rewrite N in N'. injection N' as <-.
  destruct (only_executeTool name input w0) as (es & X1 & F1).
  rewrite E. simpl.
  eexists. split; [exact (extends_trans X0 X1)|].
  rewrite forallb_app, F1. destruct streaming; reflexivity.
Qed.

(** The tool loop never throws: every invocation of the batch is dispatched
    in order and gets exactly one result block, carrying its identifier. *)
Lemma run_tools_answers streaming pending : forall toolResults w,
  Forall (fun b => is_tool_use b = true) pending ->
  exists results w',
    run_tools APP (callback_of streaming) pending toolResults w
      = (Normal (toolResults ++ results), w')
    /\ Forall2 answers pending results
    /\ exists es, extends w w' es /\ forallb not_model_call es = true.
Proof.
  induction pending as [|block rest IH]; intros acc w Hp.
  - exists [], w. simpl. rewrite app_nil_r.
    split; [reflexivity|]. split; [constructor|].
    exists []. split; [apply extends_refl | reflexivity].
  - inversion Hp as [|? ? Hb Hrest]; subst.
    destruct block as [| id name input | |]; try discriminate.
    destruct (answer_tool_use streaming id name input w) as (w0 & _ & E).
    destruct (only_answer streaming (tool_use id name input) w) as (es1 & X1 & F1).
    rewrite E in X1. simpl in X1.
    destruct (IH (acc ++ [result_block id (fst (executeTool name input APP w0))])
                 (snd (executeTool name input APP w0)) Hrest)
      as (results & w' & R & A & es2 & X2 & F2).
    exists (result_block id (fst (executeTool name input APP w0)) :: results), w'.
    split; [|split].
    + simpl. rewrite (bind_normal _ _ _ E), R.
      now rewrite <- app_assoc.
    + constructor; [apply result_block_answers | exact A].
    + exists (es1 ++ es2). split; [exact (extends_trans X1 X2)|].
      now rewrite forallb_app, F1, F2.
Qed.

(** A dispatch that throws is turned into an error-tagged result carrying the
    message of the failure. *)
Lemma failed_dispatch_is_answered streaming id name input w w0 err :
  notify (callback_of streaming) (tool_start name input) w = (Normal tt, w0) ->
  fst (executeTool name input APP w0) = Throw err ->
  fst (answer APP (callback_of streaming) (tool_use id name input) w)
    = Normal [tool_result id
                (JSON_stringify (JObj [("error", JStr (err_message err))])) true].
Proof.
  intros N T.
  destruct (answer_tool_use streaming id name input w) as (w0' & N' & E).
  rewrite N in N'. injection N' as <-.
  rewrite E. simpl. now rewrite T.
Qed.

(** A name that is neither a key of [routes] nor a member it inherits is
    reported as an unknown tool. *)
Lemma unknown_tool_fails name members w :
  routes name = None ->
  executeTool name (JObj members) APP w = (Throw (Error ("Unknown tool: " ++ name)), w).
Proof.
  intros R. unfold executeTool, bind, settle. simpl. now rewrite R.
Qed.

End DispatchFacts.

(* ------------------------------------------------------------------------- *)
(** ** The agent loop *)

Section LoopFacts.
Context {engine : Engine}.
Variable APP : string.
Import FlipletAPI Tools Server.

Lemma deltas_are_sent fragments : forall w,
  exists w',
    for_each (fun t => sse_onEvent (text_delta t)) fragments w = (Normal tt, w')
    /\ extends w w' (map (fun t => Send (sse_delta t)) fragments).
Proof.
  induction fragments as [|t rest IH]; intros w; simpl.
  - exists w. split; [reflexivity | apply extends_refl].
  - destruct (extends_perform (Send (sse_delta t)) w eq_refl eq_refl) as [P X1].
    destruct (IH (record (Send (sse_delta t)) w)) as (w' & R & X2).
    exists w'. split.
    + change (sse_onEvent (text_delta t)) with (perform (Send (sse_delta t))).
      now rewrite (bind_normal _ _ _ P).
    + exact (extends_trans X1 X2).
Qed.

(** The model request of a round, in either mode, settles as the model
    answers it. *)
Lemma model_request_runs streaming messages w :
  exists w1,
    match callback_of streaming with
    | Some callback => streamedRequest messages callback
    | None => create messages
    end w = (final (model w (requests w) messages), w1)
    /\ extends w w1 (model_call_effects streaming messages (model w (requests w) messages)).
Proof.
  destruct (extends_request streaming messages w) as (w0 & R & X0).
  destruct streaming; simpl.
  - destruct (deltas_are_sent (fragments (model w (requests w) messages)) w0)
      as (w1 & D & X1).
    exists w1. split.
    + unfold streamedRequest. rewrite (bind_normal _ _ _ R).
      rewrite (bind_normal _ _ _ D). reflexivity.
    + exact (extends_trans X0 X1).
  - exists w0. split.
    + unfold create. now rewrite (bind_normal _ _ _ R).
    + exact X0.
Qed.

(** One iteration of the loop of [agentLoop]. *)
Lemma rounds_step streaming k messages w :
  exists w1,
    extends w w1 (model_call_effects streaming messages (model w (requests w) messages))
    /\ rounds APP (S k) messages (callback_of streaming) w =
         match final (model w (requests w) messages) with
         | Throw e => (Throw e, w1)
         | Normal response =>
             let messages1 := messages ++ [assistant_message response] in
             if stop_reason response =? "end_turn" then
               (Normal (reply_of (response_content response), messages1), w1)
             else if stop_reason response =? "tool_use" then
               bind (run_tools APP (callback_of streaming)
                       (filter is_tool_use (response_content response)) [])
                    (fun toolResults =>
                       rounds APP k (messages1 ++ [tool_results_message toolResults])
                         (callback_of streaming)) w1
             else rounds APP k messages1 (callback_of streaming) w1
         end.
Proof.
  destruct (model_request_runs streaming messages w) as (w1 & R & X).
  exists w1. split; [exact X|].
  simpl rounds. unfold bind at 1. rewrite R.
  destruct (final (model w (requests w) messages)) as [response|e]; [|reflexivity].
  unfold assistant_message, tool_results_message. simpl.
  destruct (stop_reason response =? "end_turn"); [reflexivity|].
  destruct (stop_reason response =? "tool_use"); reflexivity.
Qed.

Lemma tool_uses_only blocks_ :
  Forall (fun b => is_tool_use b = true) (filter is_tool_use blocks_).
Proof.
  apply Forall_forall. intros b Hb. now apply filter_In in Hb.
Qed.

(** A run of the loop only appends to the trace, and when it has rounds left
    its first effect is the model request on the messages it was given. *)
Lemma rounds_effects streaming k : forall messages w,
  exists es,
    extends w (snd (rounds APP k messages (callback_of streaming) w)) es
    /\ (k <> 0 -> exists tail, es = ModelCall streaming messages :: tail).
Proof.
  induction k as [|k IH]; intros messages w.
  - exists []. split; [apply extends_refl | congruence].
  - destruct (rounds_step streaming k messages w) as (w1 & X1 & E).
    rewrite E. clear E.
    destruct (final (model w (requests w) messages)) as [response|e].
    + cbv zeta.
      destruct (stop_reason response =? "end_turn").
      { eexists. split; [exact X1 | intros _; eexists; reflexivity]. }
      destruct (stop_reason response =? "tool_use").
      * destruct (run_tools_answers APP streaming [] w1
                    (tool_uses_only (response_content response)))
          as (results & w2 & R & _ & es2 & X2 & _).
        rewrite (bind_normal _ _ _ R).
        destruct (IH ((messages ++ [assistant_message response])
                        ++ [tool_results_message ([] ++ results)]) w2)
          as (es3 & X3 & _).
        eexists. split; [exact (extends_trans (extends_trans X1 X2) X3)|].
        intros _. eexists. reflexivity.
      * destruct (IH (messages ++ [assistant_message response]) w1) as (es3 & X3 & _).
        eexists. split; [exact (extends_trans X1 X3)|].
        intros _. eexists. reflexivity.
    + eexists. split; [exact X1 | intros _; eexists; reflexivity].
Qed.

Lemma sends_are_not_requests (f : string -> SSE) ts :
  filter is_fetch (map (fun t => Send (f t)) ts) = []
  /\ filter is_model_call (map (fun t => Send (f t)) ts) = [].
Proof. induction ts; simpl; auto. Qed.

(** A model request advances the request counter by one and fetches
    nothing. *)
Lemma after_model_call streaming messages o w w1 :
  extends w w1 (model_call_effects streaming messages o) ->
  requests w1 = requests w + 1 /\ fetches w1 = fetches w
  /\ model w1 = model w /\ backend w1 = backend w.
Proof.
  intros X.
  rewrite (more_requests X), (more_fetches X), (same_model X), (same_backend X).
  unfold model_call_effects. simpl.
  destruct streaming; simpl;
    try (destruct (sends_are_not_requests sse_delta (fragments o)) as [-> ->]);
    simpl; repeat split; lia.
Qed.

(** A round whose stop reason is [tool_use]: every invocation block of the
    response is answered, and the loop goes on with the two new messages. *)
Lemma tool_round streaming k messages w response :
  final (model w (requests w) messages) = Normal response ->
  stop_reason response = "tool_use" ->
  exists results w2 es,
    rounds APP (S k) messages (callback_of streaming) w
      = rounds APP k
          (messages ++ [assistant_message response; tool_results_message results])
          (callback_of streaming) w2
    /\ Forall2 answers (filter is_tool_use (response_content response)) results
    /\ extends w w2 (ModelCall streaming messages :: es)
    /\ forallb not_model_call es = true.
Proof.
  intros F S.
  destruct (rounds_step streaming k messages w) as (w1 & X1 & E).
  rewrite F in E. cbv zeta in E. rewrite S in E. simpl in E.
  destruct (run_tools_answers APP streaming [] w1
              (tool_uses_only (response_content response)))
    as (results & w2 & R & A & es2 & X2 & F2).
  rewrite (bind_normal _ _ _ R) in E. simpl in E.
  rewrite <- app_assoc in E. simpl in E.
  exists results, w2. eexists. split; [exact E|]. split; [exact A|].
  split; [exact (extends_trans X1 X2)|].
  rewrite forallb_app, F2.
  destruct streaming; simpl; [|reflexivity].
  rewrite andb_true_r. apply forallb_forall. intros e He.
  apply in_map_iff in He as (t & <- & _). reflexivity.
Qed.

Lemma after_tool_round streaming messages es w w2 :
  extends w w2 (ModelCall streaming messages :: es) ->
  forallb not_model_call es = true ->
  requests w2 = requests w + 1 /\ model w2 = model w.
Proof.
  intros X F. rewrite (more_requests X), (same_model X). simpl.
  now rewrite (no_model_call _ F).
Qed.

(** C5 (amended). In every round whose stop reason is [tool_use], before the
    next model request the loop appends the assistant message and exactly one
    user-role message whose tool-result blocks answer the invocation blocks
    of the response one for one, in the same order, each with the identifier
    of its invocation and each tagged either success or error. A response
    that carries invocation blocks under another stop reason gets no such
    message. *)
Theorem tool_round_answers_every_invocation streaming k messages w response :
  final (model w (requests w) messages) = Normal response ->
  stop_reason response = "tool_use" ->
  exists results w2 es,
    rounds APP (S k) messages (callback_of streaming) w
      = rounds APP k
          (messages ++ [assistant_message response; tool_results_message results])
          (callback_of streaming) w2
    /\ Forall2 answers (filter is_tool_use (response_content response)) results
    /\ extends w w2 (ModelCall streaming messages :: es)
    /\ forallb not_model_call es = true
    /\ (k <> 0 ->
        exists tail,
          trace (snd (rounds APP (S k) messages (callback_of streaming) w))
            = trace w ++ ModelCall streaming messages :: es
              ++ ModelCall streaming
                   (messages ++ [assistant_message response;
                                 tool_results_message results]) :: tail).
Proof.
  intros F S.
  destruct (tool_round streaming k messages w F S) as (results & w2 & es & E & A & X & N).
  exists results, w2, es.
  split; [exact E|]. split; [exact A|]. split; [exact X|]. split; [exact N|].
  intros Hk. rewrite E.
  destruct (rounds_effects streaming k
              (messages ++ [assistant_message response; tool_results_message results]) w2)
    as (es3 & X3 & T).
  destruct (T Hk) as (tail & ->).
  exists tail. rewrite (more_trace X3), (more_trace X).
  now rewrite <- app_assoc.
Qed.

(** The tool loop dispatches every invocation of the batch, in order, and
    pushes the block of each dispatch. *)
Lemma run_tools_dispatched streaming pending : forall toolResults w,
  Forall (fun b => is_tool_use b = true) pending ->
  exists results w',
    run_tools APP (callback_of streaming) pending toolResults w
      = (Normal (toolResults ++ results), w')
    /\ dispatched APP streaming pending w results w'
    /\ Forall2 answers pending results
    /\ exists es, extends w w' es /\ forallb not_model_call es = true.
Proof.
  induction pending as [|block rest IH]; intros acc w Hp.
  - exists [], w. simpl. rewrite app_nil_r.
    split; [reflexivity|]. split; [constructor|]. split; [constructor|].
    exists []. split; [apply extends_refl | reflexivity].
  - inversion Hp as [|? ? Hb Hrest]; subst.
    destruct block as [| id name input | |]; try discriminate.
    destruct (answer_tool_use APP streaming id name input w) as (w0 & N & E).
    destruct (only_answer APP streaming (tool_use id name input) w) as (es1 & X1 & F1).
    rewrite E in X1. simpl in X1.
    destruct (IH (acc ++ [result_block id (fst (executeTool name input APP w0))])
                 (snd (executeTool name input APP w0)) Hrest)
      as (results & w' & R & D & A & es2 & X2 & F2).
    exists (result_block id (fst (executeTool name input APP w0)) :: results), w'.
    split; [|split; [|split]].
    + simpl. rewrite (bind_normal _ _ _ E), R.
      now rewrite <- app_assoc.
    + apply dispatched_next; [exact N | exact D].
    + constructor; [apply result_block_answers | exact A].
    + exists (es1 ++ es2). split; [exact (extends_trans X1 X2)|].
      now rewrite forallb_app, F1, F2.
Qed.

(** A round whose stop reason is [tool_use], with the worlds it goes
    through. *)
Lemma tool_round_run streaming k messages w response :
  final (model w (requests w) messages) = Normal response ->
  stop_reason response = "tool_use" ->
  exists results w1 w2,
    rounds APP (S k) messages (callback_of streaming) w
      = rounds APP k
          (messages ++ [assistant_message response; tool_results_message results])
          (callback_of streaming) w2
    /\ extends w w1
         (model_call_effects streaming messages (model w (requests w) messages))
    /\ dispatched APP streaming (filter is_tool_use (response_content response))
         w1 results w2
    /\ Forall2 answers (filter is_tool_use (response_content response)) results
    /\ requests w2 = requests w + 1
    /\ model w2 = model w.
Proof.
  intros F S.
  destruct (rounds_step streaming k messages w) as (w1 & X1 & E).
  rewrite F in E. cbv zeta in E. rewrite S in E. simpl in E.
  destruct (run_tools_dispatched streaming [] w1
              (tool_uses_only (response_content response)))
    as (results & w2 & R & D & A & es2 & X2 & F2).
  rewrite (bind_normal _ _ _ R) in E. simpl in E.
  rewrite <- app_assoc in E. simpl in E.
  destruct (after_model_call X1) as (Rq & _ & Md & _).
  exists results, w1, w2.
  split; [exact E|]. split; [exact X1|]. split; [exact D|]. split; [exact A|].
  rewrite (more_requests X2), (same_model X2), (no_model_call _ F2), Rq, Md.
  simpl. split; [lia | reflexivity].
Qed.

Lemma tool_rounds streaming k : forall messages w,
  (forall n msgs, requests w <= n < requests w + k ->
     exists response,
       final (model w n msgs) = Normal response /\ stop_reason response = "tool_use") ->
  exists pairs w',
    rounds APP k messages (callback_of streaming) w
      = (Normal (fallback_reply, messages ++ concat pairs), w')
    /\ length pairs = k
    /\ accumulated APP streaming messages w pairs w'
    /\ Forall round_pair pairs
    /\ requests w' = requests w + k.
Proof.
  induction k as [|k IH]; intros messages w H.
  - exists [], w. simpl. rewrite app_nil_r.
    split; [reflexivity|]. split; [reflexivity|]. split; [constructor|].
    split; [constructor | lia].
  - destruct (H (requests w) messages) as (response & F & S); [lia|].
    destruct (tool_round_run streaming k messages w F S)
      as (results & w1 & w2 & E & X1 & D & A & Rq & Md).
    destruct (IH (messages ++ [assistant_message response; tool_results_message results]) w2)
      as (pairs & w' & E' & L & Acc & P & Rq').
    { intros n msgs Hn. rewrite Md. apply H. lia. }
    exists ([assistant_message response; tool_results_message results] :: pairs), w'.
    split; [|split; [|split; [|split]]].
    + rewrite E, E'. simpl. now rewrite <- app_assoc.
    + simpl. now rewrite L.
    + eapply accumulated_round; [exact F | exact X1 | exact D | exact Acc].
    + constructor; [|exact P]. exists response, results. now split.
    + rewrite Rq', Rq. lia.
Qed.

(** C6. When the model answers every request of the turn with stop reason
    [tool_use], the loop makes exactly ten model requests and then ends
    normally with the fixed advisory reply; the conversation it returns is
    the one it was given followed by the ten pairs accumulated on the way:
    each pair is the assistant message holding the answer of the model to the
    conversation so far, and the user-role message holding the results of
    dispatching the invocations of that answer. *)
Theorem tool_use_in_every_round streaming messages w :
  (forall n msgs, requests w <= n < requests w + 10 ->
     exists response,
       final (model w n msgs) = Normal response /\ stop_reason response = "tool_use") ->
  exists pairs w',
    agentLoop APP messages (callback_of streaming) w
      = (Normal ("Hit the tool-call limit. Try a more specific question.",
                 messages ++ concat pairs), w')
    /\ length pairs = 10
    /\ accumulated APP streaming messages w pairs w'
    /\ Forall round_pair pairs
    /\ requests w' = requests w + 10.
Proof.
  intros H. exact (tool_rounds streaming MAX_TOOL_ROUNDS messages w H).
Qed.

(** A round whose stop reason is neither [end_turn] nor [tool_use]. *)
Lemma other_round streaming k messages w response :
  final (model w (requests w) messages) = Normal response ->
  stop_reason response <> "end_turn" ->
  stop_reason response <> "tool_use" ->
  exists w1,
    extends w w1 (model_call_effects streaming messages (model w (requests w) messages))
    /\ rounds APP (S k) messages (callback_of streaming) w
       = rounds APP k (messages ++ [assistant_message response]) (callback_of streaming) w1.
Proof.
  intros F Ne Nt.
  destruct (rounds_step streaming k messages w) as (w1 & X1 & E).
  exists w1. split; [exact X1|].
  rewrite E, F. cbv zeta.
  apply String.eqb_neq in Ne, Nt. now rewrite Ne, Nt.
Qed.

Lemma other_rounds streaming k : forall messages w,
  (forall n msgs, requests w <= n < requests w + k ->
     exists response,
       final (model w n msgs) = Normal response
       /\ stop_reason response <> "end_turn" /\ stop_reason response <> "tool_use") ->
  exists responses w',
    rounds APP k messages (callback_of streaming) w
      = (Normal (fallback_reply, messages ++ map assistant_message responses), w')
    /\ length responses = k
    /\ requests w' = requests w + k
    /\ fetches w' = fetches w.
Proof.
  induction k as [|k IH]; intros messages w H.
  - exists [], w. simpl. rewrite app_nil_r. repeat split; auto.
  - destruct (H (requests w) messages) as (response & F & Ne & Nt); [lia|].
    destruct (other_round streaming k messages w F Ne Nt) as (w1 & X1 & E).
    destruct (after_model_call X1) as (Rq & Ft & Md & _).
    destruct (IH (messages ++ [assistant_message response]) w1)
      as (responses & w' & E' & L & Rq' & Ft').
    { intros n msgs Hn. rewrite Md. apply H. lia. }
    exists (response :: responses), w'.
    split; [|split; [|split]].
    + rewrite E, E'. simpl. now rewrite <- app_assoc.
    + simpl. now rewrite L.
    + rewrite Rq', Rq. lia.
    + now rewrite Ft', Ft.
Qed.

(** C10. A response whose stop reason is neither [end_turn] nor [tool_use]
    only adds the assistant message: no tool is dispatched, no tool-result
    message is appended, no reply is produced, and the loop goes on to the
    next round with the effects of the model request as the only ones
    performed. A model that answers every request that way ends the turn after
    ten requests with the fallback reply. *)
Theorem other_stop_reason_round streaming messages w :
  (forall k response,
      final (model w (requests w) messages) = Normal response ->
      stop_reason response <> "end_turn" ->
      stop_reason response <> "tool_use" ->
      exists w1,
        extends w w1
          (model_call_effects streaming messages (model w (requests w) messages))
        /\ rounds APP (S k) messages (callback_of streaming) w
           = rounds APP k (messages ++ [assistant_message response])
               (callback_of streaming) w1)
  /\ ((forall n msgs, requests w <= n < requests w + 10 ->
        exists response,
          final (model w n msgs) = Normal response
          /\ stop_reason response <> "end_turn" /\ stop_reason response <> "tool_use") ->
      exists responses w',
        agentLoop APP messages (callback_of streaming) w
          = (Normal ("Hit the tool-call limit. Try a more specific question.",
                     messages ++ map assistant_message responses), w')
        /\ length responses = 10
        /\ requests w' = requests w + 10
        /\ fetches w' = fetches w).
Proof.
  split.
  - intros k response. apply other_round.
  - intros H. exact (other_rounds streaming MAX_TOOL_ROUNDS messages w H).
Qed.

End LoopFacts.

(* ------------------------------------------------------------------------- *)
(** ** History trimming *)

Section Trimming.
Import Server.

Lemma trimHistory_short messages :
  length messages <= MAX_HISTORY_MESSAGES -> trimHistory messages = messages.
Proof.
  intros H. unfold trimHistory. apply Nat.leb_le in H. now rewrite H.
Qed.

(** The result is the last 40 messages: whatever precedes them is dropped,
    message by message. *)
Lemma trimHistory_keeps_last dropped kept :
  length kept = MAX_HISTORY_MESSAGES -> trimHistory (dropped ++ kept) = kept.
Proof.
  intros H. unfold trimHistory. rewrite length_app, H.
  destruct (Nat.leb_spec (length dropped + MAX_HISTORY_MESSAGES) MAX_HISTORY_MESSAGES) as [L|L].
  - assert (length dropped = 0) by lia.
    destruct dropped; [reflexivity | discriminate].
  - replace (length dropped + MAX_HISTORY_MESSAGES - MAX_HISTORY_MESSAGES)
      with (length dropped + 0) by lia.
    now rewrite skipn_app, Nat.add_0_r, skipn_all, Nat.sub_diag.
Qed.

Lemma trimHistory_length messages :
  length (trimHistory messages) = Nat.min (length messages) MAX_HISTORY_MESSAGES.
Proof.
  unfold trimHistory.
  destruct (Nat.leb_spec (length messages) MAX_HISTORY_MESSAGES); [lia|].
  rewrite length_skipn. lia.
Qed.

Lemma trimHistory_idempotent messages :
  trimHistory (trimHistory messages) = trimHistory messages.
Proof.
  apply trimHistory_short. rewrite trimHistory_length. lia.
Qed.

(** When the 41st message from the end is the first of two adjacent
    messages, it is dropped and the second one is kept. *)
Lemma trimHistory_cuts_between before first second after :
  length (second :: after) = MAX_HISTORY_MESSAGES ->
  trimHistory (before ++ first :: second :: after) = second :: after.
Proof.
  intros H.
  change (before ++ first :: second :: after)
    with (before ++ [first] ++ second :: after).
  rewrite app_assoc. now apply trimHistory_keeps_last.
Qed.

End Trimming.

(* ------------------------------------------------------------------------- *)
(** ** Blocking and streaming modes *)

Section Modes.
Context {engine : Engine}.
Variable APP : string.
Import FlipletAPI Tools Server.

Lemma without_progress_app es1 es2 :
  without_progress (es1 ++ es2) = without_progress es1 ++ without_progress es2.
Proof. unfold without_progress. now rewrite filter_app, map_app. Qed.

Lemma without_progress_counts es :
  length (filter is_fetch (without_progress es)) = length (filter is_fetch es)
  /\ length (filter is_model_call (without_progress es))
     = length (filter is_model_call es).
Proof.
  induction es as [|e es [IHf IHm]]; [split; reflexivity|].
  unfold without_progress in *. simpl.
  destruct e as [url | ms | streaming messages | [t | name input | reply h | msg]];
    simpl; auto.
Qed.

Lemma same_but_progress_refl w : same_but_progress w w.
Proof. split; reflexivity. Qed.

(** Effects that differ only by progress events keep two worlds related. *)
Lemma same_but_progress_extends wb ws wb' ws' esb ess :
  same_but_progress wb ws ->
  extends wb wb' esb -> extends ws ws' ess ->
  without_progress ess = without_progress esb ->
  same_but_progress wb' ws'.
Proof.
  intros [Sb Sm Sf Sr St] Xb Xs E.
  destruct (without_progress_counts esb) as [Fb Mb].
  destruct (without_progress_counts ess) as [Fs Ms].
  rewrite E in Fs, Ms.
  split.
  - rewrite (same_backend Xs), (same_backend Xb). exact Sb.
  - rewrite (same_model Xs), (same_model Xb). exact Sm.
  - rewrite (more_fetches Xs), (more_fetches Xb). congruence.
  - rewrite (more_requests Xs), (more_requests Xb). congruence.
  - rewrite (more_trace Xs), (more_trace Xb), !without_progress_app. congruence.
Qed.

Lemma agree_ret {A} (a : A) : agree (ret a) (ret a).
Proof. intros wb ws S. now split. Qed.

Lemma agree_throw {A} e : agree (@throw A e) (throw e).
Proof. intros wb ws S. now split. Qed.

Lemma agree_settle {A} (o : Outcome A) : agree (settle o) (settle o).
Proof. intros wb ws S. now split. Qed.

Lemma agree_bind {A B} (c1 c2 : M A) (k1 k2 : A -> M B) :
  agree c1 c2 -> (forall a, agree (k1 a) (k2 a)) ->
  agree (bind c1 k1) (bind c2 k2).
Proof.
  intros Hc Hk wb ws S. unfold bind.
  destruct (Hc wb ws S) as [E S'].
  destruct (c1 wb) as [[a1|e1] wb1], (c2 ws) as [[a2|e2] ws1];
    simpl in E, S'; try discriminate E.
  - injection E as <-. now apply Hk.
  - injection E as <-. now split.
Qed.

Lemma agree_try {A} (c1 c2 : M A) h1 h2 :
  agree c1 c2 -> (forall e, agree (h1 e) (h2 e)) ->
  agree (try_catch c1 h1) (try_catch c2 h2).
Proof.
  intros Hc Hh wb ws S. unfold try_catch.
  destruct (Hc wb ws S) as [E S'].
  destruct (c1 wb) as [[a1|e1] wb1], (c2 ws) as [[a2|e2] ws1];
    simpl in E, S'; try discriminate E.
  - injection E as <-. now split.
  - injection E as <-. now apply Hh.
Qed.

Lemma agree_fetch url : agree (fetch url) (fetch url).
Proof.
  intros wb ws S.
  destruct (extends_fetch url wb) as (wb' & Eb & Xb).
  destruct (extends_fetch url ws) as (ws' & Es & Xs).
  rewrite Eb, Es. simpl. split.
  - now rewrite (sbp_backend S), (sbp_fetches S).
  - exact (same_but_progress_extends S Xb Xs eq_refl).
Qed.

Lemma agree_sleep ms : agree (sleep ms) (sleep ms).
Proof.
  intros wb ws S.
  destruct (extends_sleep ms wb) as (wb' & Eb & Xb).
  destruct (extends_sleep ms ws) as (ws' & Es & Xs).
  rewrite Eb, Es. simpl. split; [reflexivity|].
  exact (same_but_progress_extends S Xb Xs eq_refl).
Qed.

Lemma agree_notify ev :
  agree (notify (callback_of false) ev) (notify (callback_of true) ev).
Proof.
  intros wb ws S.
  destruct (notify_runs false ev wb) as (wb' & Eb & Xb).
  destruct (notify_runs true ev ws) as (ws' & Es & Xs).
  rewrite Eb, Es. simpl. split; [reflexivity|].
  apply (same_but_progress_extends S Xb Xs). now destruct ev.
Qed.

Lemma agree_model_request messages :
  agree (create messages) (streamedRequest messages sse_onEvent).
Proof.
  intros wb ws S.
  destruct (model_request_runs false messages wb) as (wb' & Eb & Xb).
  destruct (model_request_runs true messages ws) as (ws' & Es & Xs).
  simpl in Eb, Es. rewrite Eb, Es. simpl. split.
  - now rewrite (sbp_model S), (sbp_requests S).
  - apply (same_but_progress_extends S Xb Xs).
    unfold model_call_effects, without_progress. simpl. f_equal.
    induction (fragments (model ws (requests ws) messages)); simpl; auto.
Qed.

Ltac agree_step :=
  first
    [ apply agree_ret | apply agree_throw | apply agree_settle
    | apply agree_fetch | apply agree_sleep
    | apply agree_bind; [| intros ?]
    | apply agree_try; [| intros ?] ].

Lemma agree_get path : agree (get path) (get path).
Proof.
  unfold get. generalize 0 as attempt.
  generalize (Error ("Failed after " ++ decimal MAX_RETRIES ++ " attempts: " ++ path)) as lastErr.
  induction MAX_RETRIES as [|remaining IH]; intros lastErr attempt; simpl.
  - apply agree_throw.
  - apply agree_bind.
    + unfold attempt_body. repeat agree_step.
      * destruct (status a =? 429)%Z; [repeat agree_step|].
        destruct (negb (ok a)); repeat agree_step.
      * destruct (attempt <? _)%nat; repeat agree_step.
    + intros [e|promise]; [apply IH | apply agree_settle].
Qed.

Lemma agree_executeTool name input :
  agree (executeTool name input APP) (executeTool name input APP).
Proof.
  unfold executeTool. agree_step; [agree_step|].
  destruct (routes name) as [[r|m]|]; [| agree_step | agree_step].
  destruct r; unfold run_route, getApp, listDataSources, getDataSource,
    getDataSourceEntries, listMediaFolders, getFolderFiles, getFile, path_of;
    repeat first [apply agree_get | agree_step].
Qed.

Lemma agree_answer block :
  agree (answer APP (callback_of false) block) (answer APP (callback_of true) block).
Proof.
  destruct block; try apply agree_ret.
  unfold answer. apply agree_bind; [apply agree_notify | intros _].
  apply agree_try; [|intros err; apply agree_ret].
  apply agree_bind; [apply agree_executeTool | intros result; apply agree_ret].
Qed.

Lemma agree_run_tools pending : forall toolResults,
  agree (run_tools APP (callback_of false) pending toolResults)
        (run_tools APP (callback_of true) pending toolResults).
Proof.
  induction pending as [|block rest IH]; intros acc; simpl.
  - apply agree_ret.
  - apply agree_bind; [apply agree_answer | intros pushed; apply IH].
Qed.

(** The loop settles the same way in both modes. *)
Lemma agree_rounds k : forall messages,
  agree (rounds APP k messages (callback_of false))
        (rounds APP k messages (callback_of true)).
Proof.
  induction k as [|k IH]; intros messages; simpl rounds.
  - apply agree_ret.
  - apply agree_bind; [apply agree_model_request | intros response].
    cbv zeta.
    destruct (stop_reason response =? "end_turn"); [apply agree_ret|].
    destruct (stop_reason response =? "tool_use"); [|apply IH].
    apply agree_bind; [apply agree_run_tools | intros results; apply IH].
Qed.

(** C9. For a turn driven by the same model answers and backend answers, the
    streaming endpoint ends its event stream with the terminal event carrying
    exactly the reply and conversation the blocking endpoint answers (or the
    same error message); apart from that event, the two runs differ only by
    the text-fragment and tool-start events and the mode of the model
    requests. *)
Theorem streaming_delivers_blocking_result message history w :
  message <> "" ->
  exists r wb ws progress,
    api_chat APP message history w = (Normal r, wb)
    /\ api_chat_stream APP message history w = (Normal None, ws)
    /\ trace ws = progress ++ [Send (terminal_event r)]
    /\ without_progress progress = without_progress (trace wb)
    /\ fetches ws = fetches wb
    /\ requests ws = requests wb.
Proof.
  intros Hm. apply String.eqb_neq in Hm.
  unfold api_chat, api_chat_stream. rewrite Hm.
  set (messages := trimHistory (history ++ [user_message message])).
  destruct (agree_rounds MAX_TOOL_ROUNDS messages (same_but_progress_refl w)) as [E S].
  unfold agentLoop, try_catch, bind.
  change (Some sse_onEvent) with (callback_of true).
  change (@None (Event -> M unit)) with (callback_of false).
  destruct (rounds APP MAX_TOOL_ROUNDS messages (callback_of false) w) as [[rb|eb] wb],
           (rounds APP MAX_TOOL_ROUNDS messages (callback_of true) w) as [[rs|es] ws];
    simpl in E, S; try discriminate E; injection E as <-.
  - exists (chat_ok (fst rb) (snd rb)), wb. eexists. exists (trace ws).
    split; [reflexivity|]. split; [reflexivity|]. simpl.
    split; [reflexivity|]. split; [exact (sbp_trace S)|].
    split; [exact (sbp_fetches S) | exact (sbp_requests S)].
  - exists (chat_failed 500 (err_message eb)), wb. eexists. exists (trace ws).
    split; [reflexivity|]. split; [reflexivity|]. simpl.
    split; [reflexivity|]. split; [exact (sbp_trace S)|].
    split; [exact (sbp_fetches S) | exact (sbp_requests S)].
Qed.

End Modes.

(* ------------------------------------------------------------------------- *)
(** ** The code on concrete inputs *)

Section Examples.
Import FlipletAPI Tools Server Sample.
#[local] Existing Instance Sample.engine.

(** C4 at a conversation the server itself produces. A first turn runs into
    the round limit, ten further turns are answered at once; the history then
    holds 41 messages, the second and third being an assistant message with
    an invocation and the user-role message with its result. The next turn
    submits 42 messages: trimming drops the first two and keeps the
    tool-result message without the assistant message it answers. *)
Lemma trimHistory_keeps_result_without_invocation :
  let submitted := long_history ++ [asks 11] in
  fst (converse (map question (seq 0 11)) [] (start healthy_backend eager_model))
    = long_history
  /\ nth_error submitted 1 = Some (invokes 0)
  /\ nth_error submitted 2 = Some (returns 0)
  /\ answers (tool_use "toolu_0" "get_app_info" (JObj []))
             (tool_result "toolu_0" (JSON_stringify app) false)
  /\ hd_error (trimHistory submitted) = Some (returns 0)
  /\ ~ In (invokes 0) (trimHistory submitted).
Proof.
  split; [vm_compute; reflexivity|].
  split; [reflexivity|]. split; [reflexivity|].
  split; [split; [reflexivity | exists app; reflexivity]|].
  split; [reflexivity|].
  vm_compute. intros H.
  repeat (destruct H as [H|H]; [discriminate H|]). exact H.
Qed.

(** C7 at a name that is in no catalog entry but that the [routes] object
    inherits: the read [routes["constructor"]] finds the [Object] function,
    the call makes an empty object, and the invocation is answered with a
    success-tagged result instead of an "Unknown tool" error. *)
Lemma inherited_name_is_not_an_unknown_tool :
  let w := start healthy_backend quiet_model in
  ~ In "constructor" (map tool_name (buildTools APP_ID))
  /\ executeTool "constructor" (JObj []) APP_ID w = (Normal (JObj []), w)
  /\ answer APP_ID None (tool_use "toolu_0" "constructor" (JObj [])) w
     = (Normal [tool_result "toolu_0" (JSON_stringify (JObj [])) false], w)
  /\ executeTool "no_such_tool" (JObj []) APP_ID w
     = (Throw (Error "Unknown tool: no_such_tool"), w).
Proof.
  split; [|repeat split].
  simpl. intros H.
  repeat (destruct H as [H|H]; [discriminate H|]). exact H.
Qed.

(** C5, as stated, fails: the first response carries an invocation block
    under the stop reason [max_tokens]; the loop appends the assistant
    message only and issues the next model request with the invocation
    unanswered. *)
Lemma cut_off_invocation_is_left_unanswered :
  let w := start healthy_backend cut_off_model in
  let invocation := tool_use "toolu_0" "get_app_info" (JObj []) in
  final (model w 0 [asks 0])
    = Normal {| response_content := [invocation]; stop_reason := "max_tokens" |}
  /\ fst (agentLoop APP_ID [asks 0] None w)
     = Normal ("Done.", [asks 0; invokes 0; concludes])
  /\ trace (snd (agentLoop APP_ID [asks 0] None w))
     = [ModelCall false [asks 0]; ModelCall false [asks 0; invokes 0]].
Proof.
  repeat split.
Qed.

Lemma tool_round_answers_every_invocation_witness :
  let w := start healthy_backend one_tool_model in
  let response :=
    {| response_content := [tool_use "toolu_0" "get_app_info" (JObj [])];
       stop_reason := "tool_use" |} in
  (final (model w (requests w) [asks 0]) = Normal response
   /\ stop_reason response = "tool_use")
  /\ exists results w2 es,
       rounds APP_ID 10 [asks 0] (callback_of true) w
         = rounds APP_ID 9
             ([asks 0] ++ [assistant_message response; tool_results_message results])
             (callback_of true) w2
       /\ Forall2 answers (filter is_tool_use (response_content response)) results
       /\ extends w w2 (ModelCall true [asks 0] :: es)
       /\ forallb not_model_call es = true
       /\ (9 <> 0 ->
           exists tail,
             trace (snd (rounds APP_ID 10 [asks 0] (callback_of true) w))
               = trace w ++ ModelCall true [asks 0] :: es
                 ++ ModelCall true
                      ([asks 0] ++ [assistant_message response;
                                    tool_results_message results]) :: tail).
Proof.
  intros w response.
  split; [split; reflexivity|].
  exact (@tool_round_answers_every_invocation Sample.engine APP_ID true 9 [asks 0] w
           response eq_refl eq_refl).
Defined.

Lemma tool_use_in_every_round_witness :
  let w := start healthy_backend looping_model in
  (forall n msgs, requests w <= n < requests w + 10 ->
     exists response,
       final (model w n msgs) = Normal response /\ stop_reason response = "tool_use")
  /\ exists pairs w',
       agentLoop APP_ID [asks 0] (callback_of false) w
         = (Normal ("Hit the tool-call limit. Try a more specific question.",
                    [asks 0] ++ concat pairs), w')
       /\ length pairs = 10
       /\ accumulated APP_ID false [asks 0] w pairs w'
       /\ Forall round_pair pairs
       /\ requests w' = requests w + 10.
Proof.
  intros w.
  assert (H : forall n msgs, requests w <= n < requests w + 10 ->
             exists response,
               final (model w n msgs) = Normal response
               /\ stop_reason response = "tool_use").
  { intros n msgs _. eexists. split; reflexivity. }
  split; [exact H|].
  exact (@tool_use_in_every_round Sample.engine APP_ID false [asks 0] w H).
Defined.

Lemma other_stop_reason_round_witness :
  let w := start healthy_backend wordy_model in
  let response :=
    {| response_content := [text_block "and furthermore"];
       stop_reason := "max_tokens" |} in
  (final (model w (requests w) [asks 0]) = Normal response
   /\ stop_reason response <> "end_turn"
   /\ stop_reason response <> "tool_use"
   /\ forall n msgs, requests w <= n < requests w + 10 ->
        exists response,
          final (model w n msgs) = Normal response
          /\ stop_reason response <> "end_turn" /\ stop_reason response <> "tool_use")
  /\ (exists w1,
        extends w w1 (model_call_effects true [asks 0] (model w (requests w) [asks 0]))
        /\ rounds APP_ID 10 [asks 0] (callback_of true) w
           = rounds APP_ID 9 ([asks 0] ++ [assistant_message response])
               (callback_of true) w1)
  /\ exists responses w',
       agentLoop APP_ID [asks 0] (callback_of true) w
         = (Normal ("Hit the tool-call limit. Try a more specific question.",
                    [asks 0] ++ map assistant_message responses), w')
       /\ length responses = 10
       /\ requests w' = requests w + 10
       /\ fetches w' = fetches w.
Proof.
  intros w response.
  assert (Ne : stop_reason response <> "end_turn") by discriminate.
  assert (Nt : stop_reason response <> "tool_use") by discriminate.
  assert (H : forall n msgs, requests w <= n < requests w + 10 ->
             exists response,
               final (model w n msgs) = Normal response
               /\ stop_reason response <> "end_turn"
               /\ stop_reason response <> "tool_use").
  { intros n msgs _. exists response. split; [reflexivity | split; assumption]. }
  pose proof (@other_stop_reason_round Sample.engine APP_ID true [asks 0] w) as [T1 T2].
  split; [split; [reflexivity | split; [exact Ne | split; [exact Nt | exact H]]]|].
  split; [exact (T1 9 response eq_refl Ne Nt) | exact (T2 H)].
Defined.

Lemma streaming_delivers_blocking_result_witness :
  let w := start healthy_backend one_tool_model in
  question 0 <> ""
  /\ exists r wb ws progress,
       api_chat APP_ID (question 0) [] w = (Normal r, wb)
       /\ api_chat_stream APP_ID (question 0) [] w = (Normal None, ws)
       /\ trace ws = progress ++ [Send (terminal_event r)]
       /\ without_progress progress = without_progress (trace wb)
       /\ fetches ws = fetches wb
       /\ requests ws = requests wb.
Proof.
  intros w.
  assert (H : question 0 <> "") by discriminate.
  split; [exact H|].
  exact (@streaming_delivers_blocking_result Sample.engine APP_ID (question 0) [] w H).
Defined.

(** C2 at a bare list of 51 rows: the listing comes back whole, not as a
    truncated payload. *)
Lemma getDataSourceEntries_long_bare_list :
  let w := start listing_backend quiet_model in
  located (JArr long_listing) long_listing
  /\ length long_listing = 51
  /\ fst (getDataSourceEntries (Json (number 7)) w) = Normal (JArr long_listing)
  /\ fst (getDataSourceEntries (Json (number 7)) w) <> Normal (truncated long_listing).
Proof.
  repeat split; try constructor. discriminate.
Qed.

Lemma getDataSourceEntries_passthrough_witness :
  let rows := [JStr "a"; JStr "b"] in
  let data := JObj [("entries", JNull); ("rows", JArr rows)] in
  let w := start (fun _ _ => responds (success data)) quiet_model in
  (ToString (Json (number 7)) = Normal "7"
   /\ fst (get "/v1/data-sources/7/data" w) = Normal data
   /\ located data rows
   /\ length rows <= MAX_ENTRIES)
  /\ fst (getDataSourceEntries (Json (number 7)) w) = Normal data.
Proof.
  intros rows data w.
  assert (L : located data rows) by (apply under_rows; reflexivity).
  assert (Hn : length rows <= MAX_ENTRIES) by (unfold MAX_ENTRIES; simpl; lia).
  split; [repeat split; [exact L | exact Hn] |].
  rewrite (@getDataSourceEntries_passthrough Sample.engine (Json (number 7)) "7" w data
             (snd (get "/v1/data-sources/7/data" w)) rows eq_refl eq_refl L Hn).
  reflexivity.
Defined.

(** C1, as stated, fails: the first request is answered 404, yet [get] does
    not fail; it waits 500 ms, retries, and returns the payload of the second
    answer. *)
Lemma get_retries_after_404 :
  let w := start flaky_backend quiet_model in
  backend w (fetches w) (BASE ++ "/v1/apps/123") = responds not_found
  /\ permanent not_found
  /\ fst (get "/v1/apps/123" w) = Normal app
  /\ trace (snd (get "/v1/apps/123" w)) =
       [Fetch (BASE ++ "/v1/apps/123"); Sleep 500; Fetch (BASE ++ "/v1/apps/123")].
Proof.
  repeat split; try reflexivity. discriminate.
Qed.

(** C3, as stated, fails on the condition reported: after three 429 answers
    the error is "429 Rate Limited on ...", not "Failed after 3 attempts". *)
Lemma get_reports_rate_limit_not_attempts :
  let w := start busy_backend quiet_model in
  (forall k, k < MAX_RETRIES ->
     backend w (fetches w + k) (BASE ++ "/v1/apps/123") = responds rate_limited)
  /\ status rate_limited = 429%Z
  /\ fst (get "/v1/apps/123" w) = Throw (Error "429 Rate Limited on /v1/apps/123")
  /\ fst (get "/v1/apps/123" w)
     <> Throw (Error "Failed after 3 attempts: /v1/apps/123").
Proof.
  repeat split. discriminate.
Qed.

Lemma get_rate_limited_on_every_attempt_witness :
  let w := start busy_backend quiet_model in
  (forall k, k < MAX_RETRIES ->
     exists res,
       backend w (fetches w + k) (BASE ++ "/v1/apps/123") = responds res
       /\ status res = 429%Z)
  /\ exists w',
       get "/v1/apps/123" w = (Throw (Error "429 Rate Limited on /v1/apps/123"), w')
       /\ extends w w'
            [Fetch (BASE ++ "/v1/apps/123"); Sleep 500;
             Fetch (BASE ++ "/v1/apps/123"); Sleep 1000;
             Fetch (BASE ++ "/v1/apps/123"); Sleep 2000]
       /\ Error "429 Rate Limited on /v1/apps/123"
          <> Error "Failed after 3 attempts: /v1/apps/123".
Proof.
  intros w.
  assert (H : forall k, k < MAX_RETRIES ->
            exists res,
              backend w (fetches w + k) (BASE ++ "/v1/apps/123") = responds res
              /\ status res = 429%Z).
  { intros k _. exists rate_limited. split; reflexivity. }
  split; [exact H |].
  exact (@get_rate_limited_on_every_attempt "/v1/apps/123" w H).
Defined.

End Examples.

(* ------------------------------------------------------------------------- *)
(** ** Further properties of the backend client *)

Section RetryLoop.
Import FlipletAPI.

Lemma total_sleep_app es1 es2 :
  total_sleep (es1 ++ es2) = (total_sleep es1 + total_sleep es2)%Z.
Proof.
  induction es1 as [|e es1 IH]; simpl; [reflexivity|].
  destruct e; rewrite ?IH; lia.
Qed.

Lemma backoff_nonneg attempt : (0 <= backoff attempt)%Z.
Proof. unfold backoff, RETRY_BASE_MS. apply Z.mul_nonneg_nonneg; [lia|]. apply Z.pow_nonneg. lia. Qed.

(** A failed answer ends the attempt in the retry path, with the error of
    that answer remembered. *)
Lemma attempt_fails path attempt w :
  failed (backend w (fetches w) (BASE ++ path)) ->
  exists w' es,
    attempt_body path attempt w
      = (Normal (next_attempt (attempt_error path (backend w (fetches w) (BASE ++ path)))), w')
    /\ extends w w' (Fetch (BASE ++ path) :: es)
    /\ (es = [] \/ es = [Sleep (backoff attempt)]).
Proof.
  intros F.
  destruct (backend w (fetches w) (BASE ++ path)) as [e|res] eqn:B; simpl in F |- *.
  - destruct (attempt_network_failure path attempt w B) as (w' & E & X).
    exists w'. eexists. split; [exact E|]. split; [exact X|].
    destruct (attempt <? MAX_RETRIES - 1)%nat; auto.
  - destruct (status res =? 429)%Z eqn:S.
    + apply Z.eqb_eq in S.
      destruct (attempt_rate_limited path attempt w B S) as (w' & E & X).
      exists w'. eexists. split; [exact E|]. split; [exact X|]. auto.
    + apply Z.eqb_neq in S.
      destruct (attempt_permanent path attempt w B (conj F S)) as (w' & E & X).
      exists w'. eexists. split; [exact E|]. split; [exact X|].
      destruct (attempt <? MAX_RETRIES - 1)%nat; auto.
Qed.

(** Every attempt settles normally after one request and at most one
    pause. *)
Lemma attempt_runs path attempt w :
  exists it w' es,
    attempt_body path attempt w = (Normal it, w')
    /\ extends w w' (Fetch (BASE ++ path) :: es)
    /\ (es = [] \/ es = [Sleep (backoff attempt)]).
Proof.
  destruct (backend w (fetches w) (BASE ++ path)) as [e|res] eqn:B.
  - destruct (attempt_fails path attempt w) as (w' & es & E & X & D).
    { now rewrite B. }
    eauto 6.
  - destruct (ok res) eqn:O.
    + destruct (attempt_ok path attempt w B O) as (w' & E & X). eauto 7.
    + destruct (attempt_fails path attempt w) as (w' & es & E & X & D).
      { now rewrite B. }
      eauto 6.
Qed.

Lemma get_loop_budget path remaining : forall attempt lastErr w,
  exists es,
    extends w (snd (get_loop remaining attempt lastErr path w)) es
    /\ forallb (client_effect (BASE ++ path)) es = true
    /\ length (filter is_fetch es) <= remaining
    /\ (remaining <> 0 -> 1 <= length (filter is_fetch es))
    /\ (0 <= total_sleep es <= sleep_budget remaining attempt)%Z.
Proof.
  induction remaining as [|remaining IH]; intros attempt lastErr w.
  - exists []. split; [apply extends_refl|]. simpl. repeat split; auto; lia.
  - rewrite get_loop_step.
    destruct (attempt_runs path attempt w) as (it & w1 & es1 & E & X1 & D).
    rewrite E.
    pose proof (backoff_nonneg attempt) as Hb.
    assert (C1 : forallb (client_effect (BASE ++ path)) (Fetch (BASE ++ path) :: es1) = true).
    { simpl. rewrite String.eqb_refl. destruct D as [-> | ->]; reflexivity. }
    assert (F1 : length (filter is_fetch (Fetch (BASE ++ path) :: es1)) = 1).
    { destruct D as [-> | ->]; reflexivity. }
    assert (S1 : (0 <= total_sleep (Fetch (BASE ++ path) :: es1) <= backoff attempt)%Z).
    { destruct D as [-> | ->]; simpl; lia. }
    destruct it as [e|promise].
    + destruct (IH (S attempt) e w1) as (es2 & X2 & C2 & F2 & _ & S2).
      exists ((Fetch (BASE ++ path) :: es1) ++ es2).
      split; [exact (extends_trans X1 X2)|].
      rewrite forallb_app, C1, C2, filter_app, length_app, F1, total_sleep_app.
      simpl sleep_budget. repeat split; auto; lia.
    + exists (Fetch (BASE ++ path) :: es1). split; [exact X1|].
      rewrite C1, F1. simpl sleep_budget.
      assert (0 <= sleep_budget remaining (S attempt))%Z.
      { clear. generalize (S attempt). induction remaining; intros a; simpl; [lia|].
        pose proof (backoff_nonneg a). specialize (IHremaining (S a)). lia. }
      repeat split; auto; lia.
Qed.

(** X1. Whatever the backend does, one call of [get] sends between one and
    three requests, all to [BASE ++ path], sends nothing else, and pauses for
    at most 3500 ms in total. *)
Theorem get_stays_within_budget path w :
  exists es,
    extends w (snd (get path w)) es
    /\ forallb (client_effect (BASE ++ path)) es = true
    /\ 1 <= length (filter is_fetch es) <= 3
    /\ (0 <= total_sleep es <= 3500)%Z.
Proof.
  destruct (get_loop_budget path MAX_RETRIES 0
              (Error ("Failed after " ++ decimal MAX_RETRIES ++ " attempts: " ++ path)) w)
    as (es & X & C & F & F1 & S).
  exists es. split; [exact X|]. split; [exact C|].
  split; [split; [apply F1; discriminate | exact F] | exact S].
Qed.

Lemma after_failed_attempt w w1 es n url :
  extends w w1 (Fetch url :: es) ->
  (es = [] \/ exists ms, es = [Sleep ms]) ->
  backend w1 (fetches w1 + n) = backend w (fetches w + S n)
  /\ fetches w1 = fetches w + 1.
Proof.
  intros X D.
  assert (L : length (filter is_fetch (Fetch url :: es)) = 1)
    by (destruct D as [-> | [ms ->]]; reflexivity).
  rewrite (same_backend X), (more_fetches X), L. split; [f_equal; lia | reflexivity].
Qed.

Lemma get_loop_first_success path j : forall remaining attempt lastErr w res,
  j < remaining ->
  (forall i, i < j -> failed (backend w (fetches w + i) (BASE ++ path))) ->
  backend w (fetches w + j) (BASE ++ path) = responds res ->
  ok res = true ->
  exists w',
    get_loop remaining attempt lastErr path w = (json res, w')
    /\ fetches w' = fetches w + S j.
Proof.
  induction j as [|j IH]; intros remaining attempt lastErr w res Hj Hf Hb Ho;
    destruct remaining as [|remaining]; try lia; rewrite get_loop_step.
  - rewrite Nat.add_0_r in Hb.
    destruct (attempt_ok path attempt w Hb Ho) as (w' & E & X).
    rewrite E. exists w'. split; [reflexivity|].
    now rewrite (more_fetches X).
  - destruct (attempt_fails path attempt w) as (w1 & es & E & X & D).
    { specialize (Hf 0). rewrite Nat.add_0_r in Hf. apply Hf. lia. }
    rewrite E.
    assert (D' : es = [] \/ exists ms, es = [Sleep ms]) by (destruct D; eauto).
    destruct (IH remaining (S attempt)
                (attempt_error path (backend w (fetches w) (BASE ++ path))) w1 res)
      as (w' & E' & F'); try lia.
    + intros i Hi. destruct (after_failed_attempt i X D') as [-> _]. apply Hf. lia.
    + destruct (after_failed_attempt j X D') as [-> _]. exact Hb.
    + exact Ho.
    + exists w'. split; [exact E'|].
      destruct (after_failed_attempt 0 X D') as [_ F1]. lia.
Qed.

(** X2. [get] returns what the first successful answer holds: when the answers
    before it (at most two) are failures of any kind and the answer itself has
    a status in 200-299, [get] settles as that answer's [res.json()] does,
    after exactly as many requests. In particular a 2xx answer whose body does
    not parse makes [get] fail with the parse error at once: that failure is
    not retried. *)
Theorem get_returns_first_success path w j res :
  j < 3 ->
  (forall i, i < j -> failed (backend w (fetches w + i) (BASE ++ path))) ->
  backend w (fetches w + j) (BASE ++ path) = responds res ->
  ok res = true ->
  exists w',
    get path w = (json res, w') /\ fetches w' = fetches w + S j.
Proof.
  intros Hj. apply get_loop_first_success. exact Hj.
Qed.

Lemma get_loop_exhausted path remaining : forall attempt lastErr w,
  (forall i, i < S remaining -> failed (backend w (fetches w + i) (BASE ++ path))) ->
  exists w',
    get_loop (S remaining) attempt lastErr path w
      = (Throw (attempt_error path (backend w (fetches w + remaining) (BASE ++ path))), w')
    /\ fetches w' = fetches w + S remaining.
Proof.
  induction remaining as [|remaining IH]; intros attempt lastErr w Hf;
    rewrite get_loop_step;
    (destruct (attempt_fails path attempt w) as (w1 & es & E & X & D);
     [specialize (Hf 0); rewrite Nat.add_0_r in Hf; apply Hf; lia|]);
    rewrite E;
    assert (D' : es = [] \/ exists ms, es = [Sleep ms]) by (destruct D; eauto).
  - exists w1. rewrite Nat.add_0_r. split; [reflexivity|].
    now destruct (after_failed_attempt 0 X D').
  - destruct (IH (S attempt)
                (attempt_error path (backend w (fetches w) (BASE ++ path))) w1)
      as (w' & E' & F').
    + intros i Hi. destruct (after_failed_attempt i X D') as [-> _]. apply Hf. lia.
    + exists w'. rewrite E'.
      destruct (after_failed_attempt remaining X D') as [-> F1].
      split; [reflexivity | lia].
Qed.

(** X3. When all three answers are failures, of whatever kinds, [get] fails
    after exactly three requests with the error of the third answer: the
    network error itself, "429 Rate Limited on <path>", or the status error of
    the response. *)
Theorem get_fails_with_last_error path w :
  (forall i, i < 3 -> failed (backend w (fetches w + i) (BASE ++ path))) ->
  exists w',
    get path w
      = (Throw (attempt_error path (backend w (fetches w + 2) (BASE ++ path))), w')
    /\ fetches w' = fetches w + 3.
Proof.
  intros H. unfold get. change MAX_RETRIES with 3.
  apply get_loop_exhausted. exact H.
Qed.

Lemma get_loop_after_failures path j : forall remaining attempt lastErr w,
  j <= remaining ->
  (forall i, i < j -> failed (backend w (fetches w + i) (BASE ++ path))) ->
  exists e wj before,
    extends w wj before
    /\ length (filter is_fetch before) = j
    /\ get_loop remaining attempt lastErr path w
       = get_loop (remaining - j) (attempt + j) e path wj.
Proof.
  induction j as [|j IH]; intros remaining attempt lastErr w Hj Hf.
  - exists lastErr, w, []. rewrite Nat.sub_0_r, Nat.add_0_r.
    split; [apply extends_refl|]. split; reflexivity.
  - destruct remaining as [|remaining]; [lia|].
    destruct (attempt_fails path attempt w) as (w1 & es & E & X & D).
    { specialize (Hf 0). rewrite Nat.add_0_r in Hf. apply Hf. lia. }
    assert (D' : es = [] \/ exists ms, es = [Sleep ms]) by (destruct D; eauto).
    destruct (IH remaining (S attempt)
                (attempt_error path (backend w (fetches w) (BASE ++ path))) w1)
      as (e & wj & before & Xj & Lj & Ej); [lia| |].
    { intros i Hi. destruct (after_failed_attempt i X D') as [-> _]. apply Hf. lia. }
    exists e, wj, ((Fetch (BASE ++ path) :: es) ++ before).
    split; [exact (extends_trans X Xj)|]. split.
    + rewrite filter_app, length_app, Lj. destruct D as [-> | ->]; reflexivity.
    + rewrite get_loop_step, E, Ej. simpl. now rewrite Nat.add_succ_r.
Qed.

Lemma get_loop_starts_with_fetch path remaining attempt lastErr w :
  exists tail,
    trace (snd (get_loop (S remaining) attempt lastErr path w))
      = trace w ++ Fetch (BASE ++ path) :: tail.
Proof.
  rewrite get_loop_step.
  destruct (attempt_runs path attempt w) as (it & w1 & es1 & E & X1 & _).
  rewrite E. destruct it as [e|promise].
  - destruct (get_loop_budget path remaining (S attempt) e w1) as (es2 & X2 & _).
    exists (es1 ++ es2). rewrite (more_trace X2), (more_trace X1).
    now rewrite <- app_assoc.
  - exists es1. exact (more_trace X1).
Qed.

(** C1 (amended). Whichever attempt of [get] it is (the first, the second or
    the third, the earlier ones having failed), a response with a status
    outside 200-299 other than 429 ends that attempt with an error carrying
    the status code, the status text and the first 200 characters of the
    response body. The operation does not fail immediately: on the first or
    second attempt the error is caught, [get] waits for the backoff delay and
    makes the next attempt, with that error as the last one observed; on the
    third attempt [get] fails with that error. *)
Theorem get_retries_status_errors path w j res :
  j < 3 ->
  (forall i, i < j -> failed (backend w (fetches w + i) (BASE ++ path))) ->
  backend w (fetches w + j) (BASE ++ path) = responds res ->
  permanent res ->
  err_message (status_error res)
    = (decimalZ (status res) ++ " " ++ statusText res ++ " — "
       ++ substring 0 200 (match text res with Some body => body | None => "" end))%string
  /\ exists before wj w1,
       extends w wj before
       /\ length (filter is_fetch before) = j
       /\ extends wj w1 (caught_effects path j)
       /\ get path w = get_loop (2 - j) (S j) (status_error res) path w1
       /\ (j < 2 ->
           exists tail,
             trace (snd (get path w)) = trace w1 ++ Fetch (BASE ++ path) :: tail)
       /\ (j = 2 -> get path w = (Throw (status_error res), w1)).
Proof.
  intros Hj Hf Hb P. split; [reflexivity|].
  destruct (@get_loop_after_failures path j MAX_RETRIES 0
              (Error ("Failed after " ++ decimal MAX_RETRIES ++ " attempts: " ++ path)) w)
    as (e & wj & before & Xj & Lj & Ej); [unfold MAX_RETRIES; lia | exact Hf |].
  assert (Bj : backend wj (fetches wj) (BASE ++ path) = responds res).
  { rewrite (next_fetch Xj Lj). exact Hb. }
  destruct (attempt_permanent path j wj Bj P) as (w1 & E1 & X1).
  assert (G : get path w = get_loop (2 - j) (S j) (status_error res) path w1).
  { unfold get. rewrite Ej. change (0 + j) with j.
    replace (MAX_RETRIES - j) with (S (2 - j)) by (unfold MAX_RETRIES; lia).
    now rewrite get_loop_step, E1. }
  exists before, wj, w1.
  split; [exact Xj|]. split; [exact Lj|]. split; [exact X1|]. split; [exact G|].
  split.
  - intros H2. rewrite G. replace (2 - j) with (S (1 - j)) by lia.
    apply get_loop_starts_with_fetch.
  - intros ->. rewrite G. reflexivity.
Qed.

End RetryLoop.

Section Truncation.
Context {engine : Engine}.
Import FlipletAPI.

(** X4. A row listing wrapped under [entries] (or under [rows] when [entries]
    is absent or falsy) with more than 50 rows is replaced by the truncated
    payload: [_truncated: true], [_totalCount] the number of rows,
    [_shownCount] 50, the note, and [entries] the first 50 rows in order. *)
Theorem getDataSourceEntries_caps_wrapped_rows id p w members w' rows :
  ToString id = Normal p ->
  get ("/v1/data-sources/" ++ p ++ "/data") w = (Normal (JObj members), w') ->
  located (JObj members) rows ->
  MAX_ENTRIES < length rows ->
  getDataSourceEntries id w
    = (Normal (JObj [ ("_truncated", JBool true);
                      ("_totalCount", number (length rows));
                      ("_shownCount", number 50);
                      ("_note", JStr ("Showing first 50 of " ++ decimal (length rows)
                                      ++ " entries. Ask the user if they need more."));
                      ("entries", JArr (firstn 50 rows)) ]), w').
Proof.
  intros Hp Hg L Hn.
  unfold getDataSourceEntries, path_of.
  unfold bind at 1. unfold bind at 1. unfold settle at 1. rewrite Hp.
  unfold ret at 1.
  rewrite (bind_normal _ _ _ Hg).
  unfold settle. now rewrite (truncateEntries_caps_wrapped_rows L Hn).
Qed.

Lemma substring_prefix_length n : forall s,
  n <= String.length s -> String.length (substring 0 n s) = n.
Proof.
  induction n as [|n IH]; intros s H.
  - destruct s; reflexivity.
  - destruct s as [|c s]; simpl in *; [lia|]. rewrite IH; lia.
Qed.

Lemma truncateEntries_small data entries :
  or_else (or_else (member_entries data) (member_rows data)) (bare_list data) = entries ->
  truthy entries = true ->
  le_MAX_ENTRIES (length_of entries) = Normal true ->
  truncateEntries data = Normal data.
Proof.
  intros E T L. unfold truncateEntries. now rewrite E, T, L.
Qed.

Lemma truncated_payload_is_stable total text sample n :
  length_of (Json sample) = Json (number n) ->
  truthy (Json sample) = true ->
  n <= MAX_ENTRIES ->
  truncateEntries (truncated_payload total text sample)
    = Normal (truncated_payload total text sample).
Proof.
  intros L T Hn.
  apply truncateEntries_small with (entries := Json sample).
  - change (member_entries (truncated_payload total text sample)) with (Json sample).
    unfold or_else. now rewrite !T.
  - exact T.
  - rewrite L, le_MAX_ENTRIES_number. apply Nat.leb_le in Hn. now rewrite Hn.
Qed.

(** X5. Truncating twice is truncating once: whatever payload
    [truncateEntries] returns, applying it again returns the same payload. *)
Theorem truncateEntries_idempotent data d :
  truncateEntries data = Normal d -> truncateEntries d = Normal d.
Proof.
  intros H. pose proof H as H0. unfold truncateEntries in H.
  set (entries := or_else (or_else (member_entries data) (member_rows data))
                    (bare_list data)) in H.
  destruct (negb (truthy entries)); [injection H as <-; exact H0|].
  destruct (le_MAX_ENTRIES (length_of entries)) as [[|]|e] eqn:Le;
    [injection H as <-; exact H0 | | discriminate].
  destruct entries as [| [ | | | s | items | ] | ]; simpl in H; try discriminate;
    injection H as <-.
  - simpl length_of in Le. rewrite le_MAX_ENTRIES_number in Le.
    injection Le as Le. apply Nat.leb_gt in Le.
    assert (Hl : String.length (substring 0 MAX_ENTRIES s) = MAX_ENTRIES)
      by (apply substring_prefix_length; lia).
    apply truncated_payload_is_stable with (n := MAX_ENTRIES); [| |lia].
    + simpl. now rewrite Hl.
    + simpl. destruct (substring 0 MAX_ENTRIES s); [discriminate Hl | reflexivity].
  - apply truncated_payload_is_stable with (n := length (firstn MAX_ENTRIES items)).
    + reflexivity.
    + reflexivity.
    + apply firstn_le_length.
Qed.

(** X6. A truthy [entries] field that is a number or [true] makes
    [truncateEntries] throw a [TypeError] ([entries.slice] is not a
    function), whatever else the payload holds, a well-formed [rows] list
    included. *)
Theorem truncateEntries_rejects_scalar_entries members v :
  own members "entries" = Json v ->
  (v = JBool true \/ exists q, v = JNum q /\ Qeq_bool q 0 = false) ->
  truncateEntries (JObj members)
    = Throw (engine_TypeError "entries.slice is not a function").
Proof.
  intros E Hv.
  assert (T : truthy (Json v) = true).
  { destruct Hv as [-> | (q & -> & Hq)]; simpl; [reflexivity | now rewrite Hq]. }
  assert (Ent : or_else (or_else (member_entries (JObj members))
                           (member_rows (JObj members)))
                  (bare_list (JObj members)) = Json v).
  { simpl member_entries. rewrite E. unfold or_else. now rewrite !T. }
  unfold truncateEntries. rewrite Ent, T.
  destruct Hv as [-> | (q & -> & _)]; reflexivity.
Qed.

End Truncation.

(* ------------------------------------------------------------------------- *)
(** ** Further properties of the catalog and the dispatcher *)

Section Catalog.
Context {engine : Engine}.
Import FlipletAPI Tools.

(** X7. The catalog and the dispatcher name the same tools: a name has an
    entry in the catalog exactly when it is an own key of [routes]. *)
Theorem catalog_matches_routes appId name :
  In name (map tool_name (buildTools appId))
  <-> exists r, routes name = Some (own_route r).
Proof.
  split.
  - simpl. intros H.
    repeat (destruct H as [<- | H]; [eexists; reflexivity|]). contradiction.
  - intros [r R]. unfold routes in R. simpl.
    repeat match type of R with
           | (if ?n =? ?k then _ else _) = _ =>
               destruct (String.eqb_spec n k) as [-> | _]; [tauto|]
           end.
    destruct (existsb (String.eqb name) Object_prototype); discriminate.
Qed.

(** X8. The catalog is well formed: it lists seven tools under distinct
    names, every parameter a tool requires is declared in its schema, and
    every parameter is a number. *)
Theorem catalog_is_well_formed appId :
  length (buildTools appId) = 7
  /\ NoDup (map tool_name (buildTools appId))
  /\ Forall (fun t => incl (required t) (declared t)) (buildTools appId)
  /\ Forall (fun t => Forall (fun kp => param_type (snd kp) = "number") (properties t))
       (buildTools appId).
Proof.
  split; [reflexivity|]. split; [|split].
  - simpl. repeat constructor; simpl; intros H;
      repeat (destruct H as [H|H]; [discriminate H|]); exact H.
  - unfold buildTools.
    repeat (apply Forall_cons; [intros k H; simpl in *; tauto|]). apply Forall_nil.
  - unfold buildTools.
    repeat (apply Forall_cons; [repeat constructor|]). apply Forall_nil.
Qed.

(** X9. The dispatcher requests the endpoints the README documents: for each
    catalog tool, [executeTool] is one [get] of the documented path around the
    designated identifier (followed by truncation for the row listing). A
    falsy or absent [app_id] designates the configured application; a missing
    sub-resource identifier is not rejected, the path is built from
    [undefined]. *)
Theorem executeTool_requests_documented_endpoint
    name members defaultAppId before key after p w :
  documented_endpoint name = Some (before, key, after) ->
  ToString (designated key members defaultAppId) = Normal p ->
  executeTool name (JObj members) defaultAppId w
    = if name =? "get_data_source_entries"
      then (data <- get (before ++ p ++ after) ;; settle (truncateEntries data)) w
      else get (before ++ p ++ after) w.
Proof.
  unfold documented_endpoint, designated. intros D T.
  repeat match type of D with
         | (if ?n =? ?k then _ else _) = _ =>
             destruct (String.eqb_spec n k) as [-> | _];
               [injection D as <- <- <-; simpl in T;
                unfold executeTool, bind, settle; simpl;
                unfold getApp, listDataSources, getDataSource, getDataSourceEntries,
                  listMediaFolders, getFolderFiles, getFile, path_of, bind, settle, ret;
                rewrite T; reflexivity|]
         end.
  discriminate.
Qed.

Lemma client_effects_are_backend_effects url es :
  forallb (client_effect url) es = true -> forallb backend_effect es = true.
Proof.
  induction es as [|e es IH]; simpl; [reflexivity|].
  intros H. apply andb_prop in H as [He Hes]. rewrite (IH Hes).
  destruct e; simpl in *; congruence.
Qed.

Lemma one_get_get path : one_get (get path).
Proof.
  intros w.
  destruct (get_loop_budget path MAX_RETRIES 0
              (Error ("Failed after " ++ decimal MAX_RETRIES ++ " attempts: " ++ path)) w)
    as (es & X & C & F & _ & S).
  exists es. split; [exact X|]. split; [exact (client_effects_are_backend_effects _ _ C)|].
  split; [exact F | exact S].
Qed.

Lemma one_get_settled {A} (o : Outcome A) : one_get (settle o).
Proof.
  intros w. exists []. split; [apply extends_refl|]. simpl. repeat split; lia.
Qed.

Lemma one_get_after_settle {A B} (o : Outcome A) (k : A -> M B) :
  (forall a, one_get (k a)) -> one_get (bind (settle o) k).
Proof.
  intros H w. unfold bind, settle. destruct o as [a|e]; [apply H|].
  exists []. split; [apply extends_refl|]. simpl. repeat split; lia.
Qed.

Lemma one_get_then_settle {A B} (c : M A) (f : A -> Outcome B) :
  one_get c -> one_get (bind c (fun a => settle (f a))).
Proof.
  intros H w. unfold bind, settle. destruct (H w) as (es & X & R).
  destruct (c w) as [[a|e] w']; exists es; split; auto.
Qed.

Lemma one_get_path {B} before v after (k : string -> M B) :
  (forall p, one_get (k p)) -> one_get (bind (path_of before v after) k).
Proof.
  intros H w. unfold path_of, bind, settle, ret.
  destruct (ToString v) as [p|e]; [apply H|].
  exists []. split; [apply extends_refl|]. simpl. repeat split; lia.
Qed.

Lemma one_get_executeTool name input defaultAppId :
  one_get (executeTool name input defaultAppId).
Proof.
  unfold executeTool. apply one_get_after_settle. intros app_id.
  destruct (routes name) as [[r|m]|].
  - destruct r; unfold run_route, getApp, listDataSources, getDataSource,
      getDataSourceEntries, listMediaFolders, getFolderFiles, getFile;
      repeat first [ apply one_get_after_settle; intros ?
                   | apply one_get_path; intros ?
                   | apply one_get_get
                   | apply one_get_then_settle ].
  - apply one_get_settled.
  - intros w. exists []. split; [apply extends_refl|]. simpl. repeat split; lia.
Qed.

(** X10. One dispatch costs the backend at most one [get]: whatever the tool
    name and the input, [executeTool] performs only requests and pauses, at
    most three requests and at most 3500 ms of pauses, and never calls the
    model or writes an event. *)
Theorem executeTool_costs_one_get name input defaultAppId w :
  exists es,
    extends w (snd (executeTool name input defaultAppId w)) es
    /\ forallb backend_effect es = true
    /\ length (filter is_fetch es) <= 3
    /\ (0 <= total_sleep es <= 3500)%Z.
Proof. apply one_get_executeTool. Qed.

(** An invocation whose input is [null] is answered with an error-tagged
    result without any backend request, whatever its tool name: the input is
    read before the name is looked up. *)
Lemma null_input_is_answered_with_an_error defaultAppId id name w :
  Server.answer defaultAppId None (tool_use id name JNull) w
    = (Normal [tool_result id
                 (JSON_stringify
                    (JObj [("error",
                            JStr (type_error_message
                                    "Cannot read properties of null (reading 'app_id')"))]))
                 true], w).
Proof. reflexivity. Qed.

End Catalog.

(* ------------------------------------------------------------------------- *)
(** ** Further properties of the agent loop and the endpoints *)

Section LoopBehaviour.
Context {engine : Engine}.
Variable APP : string.
Import FlipletAPI Tools Server.

(** X11. A response with stop reason [end_turn] ends the turn at once: the
    reply is the text blocks of that response joined by newlines, the
    conversation gains the assistant message only, and nothing but the model
    request is performed: no tool is dispatched, even if the response carries
    invocation blocks. *)
Theorem end_turn_ends_the_turn streaming k messages w response :
  final (model w (requests w) messages) = Normal response ->
  stop_reason response = "end_turn" ->
  exists w1,
    rounds APP (S k) messages (callback_of streaming) w
      = (Normal (String.concat newline
                   (map text_of (filter is_text (response_content response))),
                 messages ++ [assistant_message response]), w1)
    /\ extends w w1
         (model_call_effects streaming messages (model w (requests w) messages)).
Proof.
  intros F S.
  destruct (rounds_step APP streaming k messages w) as (w1 & X1 & E).
  exists w1. split; [|exact X1].
  rewrite E, F. cbv zeta. rewrite S. reflexivity.
Qed.

Lemma rounds_fail_with_the_model streaming k : forall messages w e,
  fst (rounds APP k messages (callback_of streaming) w) = Throw e ->
  exists n msgs,
    requests w <= n < requests w + k /\ final (model w n msgs) = Throw e.
Proof.
  induction k as [|k IH]; intros messages w e H; [discriminate H|].
  destruct (rounds_step APP streaming k messages w) as (w1 & X1 & E).
  rewrite E in H. clear E.
  destruct (after_model_call X1) as (Rq & _ & Md & _).
  destruct (final (model w (requests w) messages)) as [response|e'] eqn:F.
  - cbv zeta in H.
    destruct (stop_reason response =? "end_turn"); [discriminate H|].
    destruct (stop_reason response =? "tool_use").
    + destruct (run_tools_answers APP streaming [] w1
                  (tool_uses_only (response_content response)))
        as (results & w2 & R & _ & es2 & X2 & F2).
      rewrite (bind_normal _ _ _ R) in H.
      destruct (IH _ _ _ H) as (n & msgs & Hn & Fn).
      exists n, msgs.
      rewrite (same_model X2), Md in Fn.
      rewrite (more_requests X2), (no_model_call _ F2), Rq in Hn. simpl in Hn.
      split; [lia | exact Fn].
    + destruct (IH _ _ _ H) as (n & msgs & Hn & Fn).
      exists n, msgs. rewrite Md in Fn. rewrite Rq in Hn. split; [lia | exact Fn].
  - simpl in H. injection H as <-.
    exists (requests w), messages. split; [lia | exact F].
Qed.

(** X12. Only the model can make a turn fail: if [agentLoop] throws, the
    error is the one with which one of the (at most ten) model requests of
    the turn failed. No failure of a tool or of the backend aborts the
    turn. *)
Theorem agentLoop_fails_only_with_the_model streaming messages w e :
  fst (agentLoop APP messages (callback_of streaming) w) = Throw e ->
  exists n msgs,
    requests w <= n < requests w + 10 /\ final (model w n msgs) = Throw e.
Proof. apply rounds_fail_with_the_model. Qed.

Lemma rounds_budget streaming k : forall messages w,
  exists es,
    extends w (snd (rounds APP k messages (callback_of streaming) w)) es
    /\ length (filter is_model_call es) <= k
    /\ (k <> 0 -> 1 <= length (filter is_model_call es))
    /\ forall reply updated,
         fst (rounds APP k messages (callback_of streaming) w) = Normal (reply, updated) ->
         exists appended,
           updated = messages ++ appended
           /\ length appended <= 2 * k
           /\ (k <> 0 -> 1 <= length appended).
Proof.
  induction k as [|k IH]; intros messages w.
  - exists []. split; [apply extends_refl|]. simpl.
    split; [lia|]. split; [congruence|].
    intros reply updated H. injection H as _ <-.
    exists []. rewrite app_nil_r. split; [reflexivity|]. split; [simpl; lia | congruence].
  - destruct (rounds_step APP streaming k messages w) as (w1 & X1 & E).
    rewrite E. clear E.
    assert (M1 : length (filter is_model_call
                   (model_call_effects streaming messages
                      (model w (requests w) messages))) = 1).
    { unfold model_call_effects. simpl. destruct streaming; simpl; [|reflexivity].
      now destruct (sends_are_not_requests sse_delta
                      (fragments (model w (requests w) messages))) as [_ ->]. }
    destruct (final (model w (requests w) messages)) as [response|e'].
    + cbv zeta.
      destruct (stop_reason response =? "end_turn").
      { eexists. split; [exact X1|]. rewrite M1. split; [lia|]. split; [lia|].
        intros reply updated H. injection H as _ <-.
        exists [assistant_message response]. simpl. split; [reflexivity|]. lia. }
      destruct (stop_reason response =? "tool_use").
      * destruct (run_tools_answers APP streaming [] w1
                    (tool_uses_only (response_content response)))
          as (results & w2 & R & _ & es2 & X2 & F2).
        rewrite (bind_normal _ _ _ R).
        destruct (IH ((messages ++ [assistant_message response])
                        ++ [tool_results_message ([] ++ results)]) w2)
          as (es3 & X3 & L3 & _ & A3).
        eexists. split; [exact (extends_trans (extends_trans X1 X2) X3)|].
        rewrite !filter_app, !length_app, M1, (no_model_call _ F2). simpl length.
        split; [lia|]. split; [lia|].
        intros reply updated H.
        destruct (A3 reply updated H) as (appended & -> & La & _).
        exists ([assistant_message response; tool_results_message ([] ++ results)]
                  ++ appended).
        rewrite <- !app_assoc. simpl. split; [reflexivity|]. lia.
      * destruct (IH (messages ++ [assistant_message response]) w1)
          as (es3 & X3 & L3 & _ & A3).
        eexists. split; [exact (extends_trans X1 X3)|].
        rewrite filter_app, length_app, M1.
        split; [lia|]. split; [lia|].
        intros reply updated H.
        destruct (A3 reply updated H) as (appended & -> & La & _).
        exists ([assistant_message response] ++ appended).
        rewrite <- app_assoc. simpl. split; [reflexivity|]. lia.
    + eexists. split; [exact X1|]. rewrite M1. split; [lia|]. split; [lia|].
      intros reply updated H. discriminate H.
Qed.

(** X13. Whatever the model and the backend do, one turn makes between one
    and ten model requests, and the conversation it returns is the one it was
    given followed by at least one and at most twenty new messages: the loop
    only appends. *)
Theorem agentLoop_stays_within_budget streaming messages w :
  exists es,
    extends w (snd (agentLoop APP messages (callback_of streaming) w)) es
    /\ 1 <= length (filter is_model_call es) <= 10
    /\ forall reply updated,
         fst (agentLoop APP messages (callback_of streaming) w) = Normal (reply, updated) ->
         exists appended,
           updated = messages ++ appended /\ 1 <= length appended <= 20.
Proof.
  destruct (rounds_budget streaming MAX_TOOL_ROUNDS messages w) as (es & X & L & L1 & A).
  exists es. split; [exact X|].
  split; [split; [apply L1; discriminate | exact L]|].
  intros reply updated H. destruct (A reply updated H) as (appended & E & La & L1a).
  exists appended. split; [exact E|].
  split; [apply L1a; discriminate | exact La].
Qed.

(** X14. The scenario of one tool round followed by a final answer, on the
    blocking endpoint: with a history of fewer than 40 messages, the reply is
    the text of the second response and the returned history is the submitted
    one followed by four messages: the question, the assistant message with
    the invocations, the user-role message with their results, and the final
    assistant message. *)
Theorem one_tool_round_adds_four_messages message history w first second :
  message <> "" ->
  length history < MAX_HISTORY_MESSAGES ->
  final (model w (requests w) (history ++ [user_message message])) = Normal first ->
  stop_reason first = "tool_use" ->
  (forall msgs, final (model w (S (requests w)) msgs) = Normal second) ->
  stop_reason second = "end_turn" ->
  exists results w',
    api_chat APP message history w
      = (Normal (chat_ok (reply_of (response_content second))
                   (history ++ [user_message message; assistant_message first;
                                tool_results_message results;
                                assistant_message second])), w')
    /\ Forall2 answers (filter is_tool_use (response_content first)) results.
Proof.
  intros Hm Hl F1 S1 F2 S2.
  apply String.eqb_neq in Hm.
  destruct (tool_round APP false 9 (history ++ [user_message message]) w F1 S1)
    as (results & w2 & es & E & A & X & N).
  destruct (after_tool_round X N) as [Rq Md].
  destruct (rounds_step APP false 8
              ((history ++ [user_message message])
                 ++ [assistant_message first; tool_results_message results]) w2)
    as (w3 & _ & E3).
  rewrite Md, Rq, Nat.add_1_r, F2 in E3. cbv zeta in E3.
  rewrite S2, String.eqb_refl in E3.
  assert (R : agentLoop APP (history ++ [user_message message]) None w
              = (Normal (reply_of (response_content second),
                         history ++ [user_message message; assistant_message first;
                                     tool_results_message results;
                                     assistant_message second]), w3)).
  { unfold agentLoop. change (@None (Event -> M unit)) with (callback_of false).
    change MAX_TOOL_ROUNDS with 10. rewrite E, E3. now rewrite <- !app_assoc. }
  exists results, w3. split; [|exact A].
  unfold api_chat. rewrite Hm.
  rewrite trimHistory_short by (rewrite length_app; simpl; lia).
  apply try_normal. now rewrite (bind_normal _ _ _ R).
Qed.

(** On a history that is a list of messages the blocking endpoint always
    answers, in one of three ways. *)
Lemma api_chat_answers message history w :
  exists r w',
    api_chat APP message history w = (Normal r, w')
    /\ match r with
       | chat_ok _ updated =>
           message <> ""
           /\ exists appended,
                updated = trimHistory (history ++ [user_message message]) ++ appended
                /\ 1 <= length appended <= 20
       | chat_failed code error =>
           (code = 400%Z /\ error = "message is required" /\ message = "" /\ w' = w)
           \/ (code = 500%Z /\ message <> ""
               /\ exists n msgs e,
                    requests w <= n < requests w + 10
                    /\ final (model w n msgs) = Throw e
                    /\ error = err_message e)
       end.
Proof.
  unfold api_chat, try_catch.
  destruct (String.eqb_spec message "") as [-> | Hm].
  - eexists. eexists. split; [reflexivity|]. left. auto.
  - set (messages := trimHistory (history ++ [user_message message])).
    unfold bind, agentLoop. change (@None (Event -> M unit)) with (callback_of false).
    destruct (rounds_budget false MAX_TOOL_ROUNDS messages w) as (es & _ & _ & _ & A).
    pose proof (rounds_fail_with_the_model false MAX_TOOL_ROUNDS messages w) as T.
    destruct (rounds APP MAX_TOOL_ROUNDS messages (callback_of false) w)
      as [[[reply updated]|e] w1].
    + eexists. eexists. split; [reflexivity|]. simpl. split; [exact Hm|].
      destruct (A reply updated eq_refl) as (appended & E & La & L1).
      exists appended. split; [exact E|].
      split; [apply L1; discriminate | exact La].
    + eexists. eexists. split; [reflexivity|]. right.
      split; [reflexivity|]. split; [exact Hm|].
      destruct (T e eq_refl) as (n & msgs & Hn & Fn). exists n, msgs, e. auto.
Qed.

(** X15. The blocking endpoint always answers, and in one of four ways. It
    answers 400 "message is required" exactly when the message is empty, and
    then nothing at all is done. Otherwise, a [history] that cannot be spread
    (null, a number, a boolean, a plain object) gets 500 with the message of
    the [TypeError], without any model request; a failed model request gets
    500 with the message of its error; and in the remaining case the answer
    is the reply together with a history that is the trimmed submitted
    conversation (the empty one when [history] is absent) followed by 1 to 20
    new messages. *)
Theorem api_chat_always_answers message history w :
  exists r w',
    api_chat_request APP message history w = (Normal r, w')
    /\ match r with
       | chat_ok _ updated =>
           message <> ""
           /\ exists submitted appended,
                (history = history_messages submitted
                 \/ (history = history_absent /\ submitted = []))
                /\ updated = trimHistory (submitted ++ [user_message message]) ++ appended
                /\ 1 <= length appended <= 20
       | chat_failed code error =>
           (code = 400%Z /\ error = "message is required" /\ message = "" /\ w' = w)
           \/ (code = 500%Z /\ message <> "" /\ history = history_not_iterable
               /\ error = type_error_message "history is not iterable" /\ w' = w)
           \/ (code = 500%Z /\ message <> "" /\ history <> history_not_iterable
               /\ exists n msgs e,
                    requests w <= n < requests w + 10
                    /\ final (model w n msgs) = Throw e
                    /\ error = err_message e)
       end.
Proof.
  assert (Typed : forall submitted,
            history = history_messages submitted
            \/ (history = history_absent /\ submitted = []) ->
            api_chat_request APP message history w = api_chat APP message submitted w ->
            exists r w',
              api_chat_request APP message history w = (Normal r, w')
              /\ match r with
                 | chat_ok _ updated =>
                     message <> ""
                     /\ exists submitted appended,
                          (history = history_messages submitted
                           \/ (history = history_absent /\ submitted = []))
                          /\ updated
                             = trimHistory (submitted ++ [user_message message]) ++ appended
                          /\ 1 <= length appended <= 20
                 | chat_failed code error =>
                     (code = 400%Z /\ error = "message is required"
                      /\ message = "" /\ w' = w)
                     \/ (code = 500%Z /\ message <> "" /\ history = history_not_iterable
                         /\ error = type_error_message "history is not iterable"
                         /\ w' = w)
                     \/ (code = 500%Z /\ message <> "" /\ history <> history_not_iterable
                         /\ exists n msgs e,
                              requests w <= n < requests w + 10
                              /\ final (model w n msgs) = Throw e
                              /\ error = err_message e)
                 end).
  { intros submitted Hs ->.
    destruct (api_chat_answers message submitted w) as (r & w' & E & C).
    exists r, w'. split; [exact E|].
    destruct r as [reply updated | code error].
    - destruct C as (Hm & appended & Eu & L).
      split; [exact Hm|]. exists submitted, appended. auto.
    - destruct C as [C | (Hc & Hm & R)]; [left; exact C|].
      right. right. split; [exact Hc|]. split; [exact Hm|].
      split; [|exact R].
      destruct Hs as [-> | [-> _]]; discriminate. }
  destruct history as [| submitted |].
  - apply (Typed []); [right; split; reflexivity | reflexivity].
  - apply (Typed submitted); [left; reflexivity | reflexivity].
  - unfold api_chat_request, try_catch.
    destruct (String.eqb_spec message "") as [-> | Hm].
    + eexists. eexists. split; [reflexivity|]. left. auto.
    + eexists. eexists. split; [reflexivity|]. right. left. auto 6.
Qed.

Lemma only_of_one_get {A} allowed (c : M A) :
  (forall e, backend_effect e = true -> allowed e = true) ->
  one_get c -> only allowed c.
Proof.
  intros Hb H w. destruct (H w) as (es & X & B & _).
  exists es. split; [exact X|].
  rewrite forallb_forall in *. auto.
Qed.

Lemma only_notify_any allowed streaming ev :
  (streaming = true -> forall e, is_progress e = true -> allowed e = true) ->
  only allowed (notify (callback_of streaming) ev).
Proof.
  intros Hp. destruct streaming; simpl; [|apply only_ret].
  destruct ev; unfold sse_onEvent, send; apply only_perform; try reflexivity;
    now apply Hp.
Qed.

Lemma only_answer_any allowed streaming block :
  (forall e, backend_effect e = true -> allowed e = true) ->
  (streaming = true -> forall e, is_progress e = true -> allowed e = true) ->
  only allowed (answer APP (callback_of streaming) block).
Proof.
  intros Hb Hp. destruct block; try apply only_ret.
  unfold answer. apply only_bind; [now apply only_notify_any | intros _].
  apply only_try; [|intros err; apply only_ret].
  apply only_bind; [|intros result; apply only_ret].
  apply only_of_one_get; [exact Hb | apply one_get_executeTool].
Qed.

Lemma only_run_tools_any allowed streaming pending : forall toolResults,
  (forall e, backend_effect e = true -> allowed e = true) ->
  (streaming = true -> forall e, is_progress e = true -> allowed e = true) ->
  only allowed (run_tools APP (callback_of streaming) pending toolResults).
Proof.
  induction pending as [|block rest IH]; intros acc Hb Hp; simpl.
  - apply only_ret.
  - apply only_bind; [now apply only_answer_any | intros pushed; now apply IH].
Qed.

Lemma only_model_request_any allowed streaming messages :
  (forall s m, allowed (ModelCall s m) = true) ->
  (streaming = true -> forall e, is_progress e = true -> allowed e = true) ->
  only allowed
    match callback_of streaming with
    | Some callback => streamedRequest messages callback
    | None => create messages
    end.
Proof.
  intros Hm Hp. destruct streaming; simpl.
  - unfold streamedRequest. apply only_bind; [apply only_request, Hm|].
    intros o. apply only_bind; [|intros _; apply only_settle].
    apply only_for_each. intros t.
    apply (@only_notify_any allowed true (text_delta t) Hp).
  - unfold create. apply only_bind; [apply only_request, Hm|].
    intros o. apply only_settle.
Qed.

Lemma only_rounds_any allowed streaming k : forall messages,
  (forall e, backend_effect e = true -> allowed e = true) ->
  (forall s m, allowed (ModelCall s m) = true) ->
  (streaming = true -> forall e, is_progress e = true -> allowed e = true) ->
  only allowed (rounds APP k messages (callback_of streaming)).
Proof.
  induction k as [|k IH]; intros messages Hb Hm Hp; simpl rounds.
  - apply only_ret.
  - apply only_bind; [now apply only_model_request_any | intros response].
    cbv zeta.
    destruct (stop_reason response =? "end_turn"); [apply only_ret|].
    destruct (stop_reason response =? "tool_use"); [|now apply IH].
    apply only_bind; [now apply only_run_tools_any | intros results; now apply IH].
Qed.

(** X16. The events of the two endpoints. For a non-empty message the
    streaming endpoint writes exactly one terminal event ([done] or [error]),
    and writes it last; the blocking endpoint writes no event at all. *)
Theorem endpoints_write_their_events message history w :
  message <> "" ->
  (exists es terminal,
     extends w (snd (api_chat_stream APP message history w)) (es ++ [Send terminal])
     /\ forallb not_terminal es = true
     /\ is_terminal (Send terminal) = true)
  /\ exists es,
       extends w (snd (api_chat APP message history w)) es
       /\ forallb not_send es = true.
Proof.
  intros Hm. apply String.eqb_neq in Hm.
  set (messages := trimHistory (history ++ [user_message message])).
  split.
  - destruct (@only_rounds_any not_terminal true MAX_TOOL_ROUNDS messages) with (w := w)
      as (es & X & F).
    { now intros [] H. }
    { reflexivity. }
    { intros _ [| | |[]] H; try discriminate H; reflexivity. }
    unfold api_chat_stream. rewrite Hm. fold messages.
    unfold bind, try_catch, agentLoop.
    change (Some sse_onEvent) with (callback_of true).
    destruct (rounds APP MAX_TOOL_ROUNDS messages (callback_of true) w)
      as [[r|e] w1]; simpl in X |- *.
    + exists es, (sse_done (fst r) (snd r)). split; [|split; [exact F | reflexivity]].
      apply (extends_trans X).
      now apply (extends_perform (Send (sse_done (fst r) (snd r))) w1).
    + exists es, (sse_error (err_message e)). split; [|split; [exact F | reflexivity]].
      apply (extends_trans X).
      now apply (extends_perform (Send (sse_error (err_message e))) w1).
  - destruct (@only_rounds_any not_send false MAX_TOOL_ROUNDS messages) with (w := w)
      as (es & X & F).
    { now intros [] H. }
    { reflexivity. }
    { discriminate. }
    unfold api_chat. rewrite Hm. fold messages.
    unfold bind, try_catch, agentLoop.
    change (@None (Event -> M unit)) with (callback_of false).
    destruct (rounds APP MAX_TOOL_ROUNDS messages (callback_of false) w)
      as [[r|e] w1]; simpl in X |- *; exists es; split; assumption.
Qed.

(** X17. In streaming mode the [tool_start] event of an invocation is written
    before anything is asked of the backend for it; what follows the event is
    the dispatch alone: backend requests and pauses, at most three
    requests. *)
Theorem tool_start_precedes_the_dispatch id name input w :
  exists es,
    extends w (snd (answer APP (Some sse_onEvent) (tool_use id name input) w))
      (Send (sse_tool name input) :: es)
    /\ forallb backend_effect es = true
    /\ length (filter is_fetch es) <= 3.
Proof.
  change (Some sse_onEvent) with (callback_of true).
  destruct (answer_tool_use APP true id name input w) as (w0 & N & E).
  destruct (notify_runs true (tool_start name input) w) as (w0' & N' & X0).
  rewrite N in N'. injection N' as <-.
  destruct (one_get_executeTool name input APP w0) as (es & X1 & B & F & _).
  exists es. rewrite E. simpl. split; [exact (extends_trans X0 X1)|]. auto.
Qed.

Lemma trimHistory_skipn messages :
  trimHistory messages = skipn (length messages - MAX_HISTORY_MESSAGES) messages.
Proof.
  unfold trimHistory.
  destruct (Nat.leb_spec (length messages) MAX_HISTORY_MESSAGES) as [L|L]; [|reflexivity].
  replace (length messages - MAX_HISTORY_MESSAGES) with 0 by lia. reflexivity.
Qed.

(** X18. Trimming keeps the newest window: the result is the conversation
    without its [length - 40] oldest messages (none when it has at most 40),
    so it has [min length 40] messages and still ends with the newest one;
    trimming again changes nothing. *)
Theorem trimHistory_keeps_the_newest_window messages :
  (exists dropped,
     messages = dropped ++ trimHistory messages
     /\ length dropped = length messages - 40)
  /\ length (trimHistory messages) = Nat.min (length messages) 40
  /\ trimHistory (trimHistory messages) = trimHistory messages
  /\ forall older newest,
       messages = older ++ [newest] ->
       exists kept, trimHistory messages = kept ++ [newest].
Proof.
  split; [|split; [|split]].
  - exists (firstn (length messages - MAX_HISTORY_MESSAGES) messages).
    rewrite trimHistory_skipn, firstn_skipn. split; [reflexivity|].
    rewrite length_firstn. unfold MAX_HISTORY_MESSAGES. lia.
  - apply trimHistory_length.
  - apply trimHistory_idempotent.
  - intros older newest ->. rewrite trimHistory_skipn, length_app. simpl length.
    exists (skipn (length older + 1 - MAX_HISTORY_MESSAGES) older).
    rewrite skipn_app.
    replace (length older + 1 - MAX_HISTORY_MESSAGES - length older) with 0
      by (unfold MAX_HISTORY_MESSAGES; lia).
    reflexivity.
Qed.

End LoopBehaviour.

(* ------------------------------------------------------------------------- *)
(** ** The direct mode of the client *)

Section DirectMode.
Context {engine : Engine}.
Variable APP : string.
Import Server Cli.

Lemma printing_is_silent fragments : forall w,
  for_each (fun t => print_text (text_delta t)) fragments w = (Normal tt, w).
Proof.
  induction fragments as [|t rest IH]; intros w; simpl; [reflexivity|].
  unfold bind, print_text at 1, ret at 1. apply IH.
Qed.

(** The model request of the direct mode. *)
Lemma direct_request_runs messages w :
  exists w1,
    streamedRequest messages print_text w = (final (model w (requests w) messages), w1)
    /\ extends w w1 [ModelCall true messages].
Proof.
  destruct (extends_request true messages w) as (w1 & R & X).
  exists w1. split; [|exact X].
  unfold streamedRequest. rewrite (bind_normal _ _ _ R).
  unfold bind. now rewrite printing_is_silent.
Qed.

Lemma direct_rounds_step k history w :
  exists w1,
    extends w w1 [ModelCall true (trimHistory history)]
    /\ direct_rounds APP (S k) history w =
         match final (model w (requests w) (trimHistory history)) with
         | Throw e => ((Throw e, history), w1)
         | Normal response =>
             let history1 := history ++ [assistant_message response] in
             if stop_reason response =? "end_turn" then ((Normal tt, history1), w1)
             else if stop_reason response =? "tool_use" then
               match run_tools APP None
                       (filter is_tool_use (response_content response)) [] w1 with
               | (Throw e, w2) => ((Throw e, history1), w2)
               | (Normal results, w2) =>
                   direct_rounds APP k (history1 ++ [tool_results_message results]) w2
               end
             else direct_rounds APP k history1 w1
         end.
Proof.
  destruct (direct_request_runs (trimHistory history) w) as (w1 & R & X).
  exists w1. split; [exact X|].
  simpl direct_rounds. rewrite R.
  destruct (final (model w (requests w) (trimHistory history))); reflexivity.
Qed.

Lemma direct_rounds_append k : forall history w,
  exists appended,
    snd (fst (direct_rounds APP k history w)) = history ++ appended
    /\ length appended <= 2 * k.
Proof.
  induction k as [|k IH]; intros history w.
  - exists []. simpl. rewrite app_nil_r. split; [reflexivity | lia].
  - destruct (direct_rounds_step k history w) as (w1 & _ & E). rewrite E. clear E.
    destruct (final (model w (requests w) (trimHistory history))) as [response|e].
    + cbv zeta.
      destruct (stop_reason response =? "end_turn").
      { exists [assistant_message response]. simpl. split; [reflexivity | lia]. }
      destruct (stop_reason response =? "tool_use").
      * destruct (run_tools APP None (filter is_tool_use (response_content response)) [] w1)
          as [[results|e] w2].
        -- destruct (IH ((history ++ [assistant_message response])
                           ++ [tool_results_message results]) w2) as (appended & -> & L).
           exists ([assistant_message response; tool_results_message results] ++ appended).
           rewrite <- !app_assoc. simpl. split; [reflexivity | lia].
        -- exists [assistant_message response]. simpl. split; [reflexivity | lia].
      * destruct (IH (history ++ [assistant_message response]) w1) as (appended & -> & L).
        exists ([assistant_message response] ++ appended).
        rewrite <- app_assoc. simpl. split; [reflexivity | lia].
    + exists []. simpl. rewrite app_nil_r. split; [reflexivity | lia].
Qed.

(** X19. The direct mode never drops a message from its history: however the
    turn ends, a failed model request included, the history afterwards is the
    history before, followed by the question and by at most twenty further
    messages. The 40-message window only limits what is submitted to the
    model. *)
Theorem chatDirect_only_appends message history w :
  exists appended,
    snd (fst (chatDirect APP message history w))
      = history ++ user_message message :: appended
    /\ length appended <= 20.
Proof.
  unfold chatDirect.
  destruct (direct_rounds_append 10 (history ++ [{| role := user; content := plain message |}]) w)
    as (appended & E & L).
  exists appended. rewrite E, <- app_assoc. split; [reflexivity | exact L].
Qed.

Lemma agree_run_tools_blocking pending : forall toolResults,
  agree (run_tools APP None pending toolResults) (run_tools APP None pending toolResults).
Proof.
  induction pending as [|block rest IH]; intros acc; simpl.
  - apply agree_ret.
  - apply agree_bind; [|intros pushed; apply IH].
    destruct block; try apply agree_ret.
    unfold answer. apply agree_bind; [apply agree_ret | intros _].
    apply agree_try; [|intros err; apply agree_ret].
    apply agree_bind; [apply agree_executeTool | intros result; apply agree_ret].
Qed.

Lemma direct_rounds_follow_the_server k : forall history wb wd,
  same_but_progress wb wd ->
  length history + 2 * k <= 42 ->
  match fst (rounds APP k history None wb) with
  | Normal (_, updated) => fst (direct_rounds APP k history wd) = (Normal tt, updated)
  | Throw e => fst (fst (direct_rounds APP k history wd)) = Throw e
  end
  /\ same_but_progress (snd (rounds APP k history None wb))
       (snd (direct_rounds APP k history wd)).
Proof.
  induction k as [|k IH]; intros history wb wd S L.
  - simpl. now split.
  - destruct (rounds_step APP false k history wb) as (wb1 & Xb & Eb).
    destruct (direct_rounds_step k history wd) as (wd1 & Xd & Ed).
    change (@None (Event -> M unit)) with (callback_of false).
    rewrite Eb, Ed. clear Eb Ed.
    rewrite trimHistory_short in * by (unfold MAX_HISTORY_MESSAGES; lia).
    assert (S1 : same_but_progress wb1 wd1).
    { apply (same_but_progress_extends S Xb Xd). reflexivity. }
    rewrite (sbp_model S), (sbp_requests S).
    destruct (final (model wb (requests wb) history)) as [response|e]; [|now split].
    cbv zeta.
    destruct (stop_reason response =? "end_turn"); [now split|].
    destruct (stop_reason response =? "tool_use").
    + destruct (agree_run_tools_blocking (filter is_tool_use (response_content response))
                  [] S1) as [E S2].
      unfold bind. simpl callback_of.
      destruct (run_tools APP None (filter is_tool_use (response_content response)) [] wb1)
        as [[rb|eb] wb2],
        (run_tools APP None (filter is_tool_use (response_content response)) [] wd1)
        as [[rd|ed] wd2]; simpl in E, S2; try discriminate E; injection E as <-.
      * apply IH; [exact S2|]. rewrite !length_app. simpl. lia.
      * now split.
    + apply IH; [exact S1|]. rewrite length_app. simpl. lia.
Qed.

(** X20. While the conversation fits the window, and for the same answers of
    the model (its answer to the n-th request on a given message list), the
    direct mode builds the conversation the server builds: with a history of
    at most 21 messages, [chatDirect] leaves in its history exactly the
    conversation the blocking endpoint's loop returns for the same question
    (and fails with the same error when a model request fails), after the
    same backend requests, and submits the same message lists to the model in
    the same order. The system prompts of the two, which differ, are not
    part of what is compared. *)
Theorem chatDirect_follows_the_server message history w :
  length history <= 21 ->
  match fst (agentLoop APP (trimHistory (history ++ [user_message message])) None w) with
  | Normal (_, updated) =>
      fst (chatDirect APP message history w) = (Normal tt, updated)
  | Throw e => fst (fst (chatDirect APP message history w)) = Throw e
  end
  /\ same_but_progress
       (snd (agentLoop APP (trimHistory (history ++ [user_message message])) None w))
       (snd (chatDirect APP message history w)).
Proof.
  intros L.
  rewrite trimHistory_short
    by (rewrite length_app; unfold MAX_HISTORY_MESSAGES; simpl; lia).
  apply direct_rounds_follow_the_server; [apply same_but_progress_refl|].
  rewrite length_app. simpl. lia.
Qed.

End DirectMode.

(* ------------------------------------------------------------------------- *)
(** ** The further properties on concrete inputs *)

Section MoreExamples.
Import FlipletAPI Tools Server Cli Sample Scenario.
#[local] Existing Instance Sample.engine.

Lemma get_returns_first_success_witness :
  let w := start flaky_backend quiet_model in
  (1 < 3
   /\ (forall i, i < 1 -> failed (backend w (fetches w + i) (BASE ++ "/v1/apps/123")))
   /\ backend w (fetches w + 1) (BASE ++ "/v1/apps/123") = responds (success app)
   /\ ok (success app) = true)
  /\ exists w',
       get "/v1/apps/123" w = (json (success app), w') /\ fetches w' = fetches w + 2.
Proof.
  intros w.
  assert (F : forall i, i < 1 ->
            failed (backend w (fetches w + i) (BASE ++ "/v1/apps/123"))).
  { intros i Hi. replace i with 0 by lia. reflexivity. }
  split; [repeat split; [lia | exact F]|].
  exact (@get_returns_first_success "/v1/apps/123" w 1 (success app)
           (le_S 2 2 (le_n 2)) F eq_refl eq_refl).
Defined.

Lemma get_fails_with_last_error_witness :
  let w := start troubled_backend quiet_model in
  (forall i, i < 3 -> failed (backend w (fetches w + i) (BASE ++ "/v1/apps/123")))
  /\ exists w',
       get "/v1/apps/123" w = (Throw (Error "404 Not Found — no such app"), w')
       /\ fetches w' = fetches w + 3.
Proof.
  intros w.
  assert (F : forall i, i < 3 ->
            failed (backend w (fetches w + i) (BASE ++ "/v1/apps/123"))).
  { intros i Hi. destruct i as [|[|[|i]]]; reflexivity. }
  split; [exact F|].
  exact (@get_fails_with_last_error "/v1/apps/123" w F).
Defined.

Lemma getDataSourceEntries_caps_wrapped_rows_witness :
  let w := start wrapped_backend quiet_model in
  (ToString (Json (number 7)) = Normal "7"
   /\ fst (get "/v1/data-sources/7/data" w) = Normal wrapped_listing
   /\ located wrapped_listing long_listing
   /\ MAX_ENTRIES < length long_listing)
  /\ fst (getDataSourceEntries (Json (number 7)) w)
     = Normal (JObj [ ("_truncated", JBool true);
                      ("_totalCount", number 51);
                      ("_shownCount", number 50);
                      ("_note", JStr "Showing first 50 of 51 entries. Ask the user if they need more.");
                      ("entries", JArr (firstn 50 long_listing)) ]).
Proof.
  intros w.
  assert (L : located wrapped_listing long_listing) by (apply under_rows; reflexivity).
  assert (Hn : MAX_ENTRIES < length long_listing) by (unfold MAX_ENTRIES; simpl; lia).
  split; [repeat split; [exact L | exact Hn]|].
  rewrite (@getDataSourceEntries_caps_wrapped_rows Sample.engine (Json (number 7)) "7" w
             [("rows", JArr long_listing)] (snd (get "/v1/data-sources/7/data" w))
             long_listing eq_refl eq_refl L Hn).
  reflexivity.
Defined.

Lemma truncateEntries_idempotent_witness :
  let data := JObj [("entries", JArr long_listing)] in
  truncateEntries data = Normal (truncated long_listing)
  /\ truncateEntries (truncated long_listing) = Normal (truncated long_listing).
Proof.
  intros data.
  assert (H : truncateEntries data = Normal (truncated long_listing)) by reflexivity.
  split; [exact H|].
  exact (@truncateEntries_idempotent Sample.engine data (truncated long_listing) H).
Defined.

Lemma truncateEntries_rejects_scalar_entries_witness :
  let members := [("entries", JBool true); ("rows", JArr [JStr "a"; JStr "b"])] in
  (own members "entries" = Json (JBool true)
   /\ (JBool true = JBool true
       \/ exists q, JBool true = JNum q /\ Qeq_bool q 0 = false))
  /\ truncateEntries (JObj members)
     = Throw (TypeError "entries.slice is not a function").
Proof.
  intros members.
  assert (V : JBool true = JBool true
              \/ exists q, JBool true = JNum q /\ Qeq_bool q 0 = false)
    by (left; reflexivity).
  split; [split; [reflexivity | exact V]|].
  exact (@truncateEntries_rejects_scalar_entries Sample.engine members (JBool true)
           eq_refl V).
Defined.

Lemma executeTool_requests_documented_endpoint_witness :
  let w := start healthy_backend quiet_model in
  (documented_endpoint "get_data_source" = Some ("/v1/data-sources/", "data_source_id", "")
   /\ ToString (designated "data_source_id" [] APP_ID) = Normal "undefined")
  /\ executeTool "get_data_source" (JObj []) APP_ID w
     = get "/v1/data-sources/undefined" w.
Proof.
  intros w. split; [split; reflexivity|].
  exact (@executeTool_requests_documented_endpoint Sample.engine "get_data_source" []
           APP_ID "/v1/data-sources/" "data_source_id" "" "undefined" w eq_refl eq_refl).
Defined.

Lemma end_turn_ends_the_turn_witness :
  let w := start healthy_backend quiet_model in
  let response :=
    {| response_content := [text_block "Done."]; stop_reason := "end_turn" |} in
  (final (model w (requests w) [asks 0]) = Normal response
   /\ stop_reason response = "end_turn")
  /\ exists w1,
       rounds APP_ID 10 [asks 0] (callback_of true) w
         = (Normal ("Done.", [asks 0] ++ [assistant_message response]), w1)
       /\ extends w w1
            (model_call_effects true [asks 0] (model w (requests w) [asks 0])).
Proof.
  intros w response. split; [split; reflexivity|].
  exact (@end_turn_ends_the_turn Sample.engine APP_ID true 9 [asks 0] w response
           eq_refl eq_refl).
Defined.

Lemma agentLoop_fails_only_with_the_model_witness :
  let w := start healthy_backend failing_model in
  fst (agentLoop APP_ID [asks 0] (callback_of false) w) = Throw (Error "Overloaded")
  /\ exists n msgs,
       requests w <= n < requests w + 10
       /\ final (model w n msgs) = Throw (Error "Overloaded").
Proof.
  intros w.
  assert (H : fst (agentLoop APP_ID [asks 0] (callback_of false) w)
              = Throw (Error "Overloaded")) by reflexivity.
  split; [exact H|].
  exact (@agentLoop_fails_only_with_the_model Sample.engine APP_ID false [asks 0] w
           (Error "Overloaded") H).
Defined.

Lemma one_tool_round_adds_four_messages_witness :
  let w := start healthy_backend one_tool_model in
  let first :=
    {| response_content := [tool_use "toolu_0" "get_app_info" (JObj [])];
       stop_reason := "tool_use" |} in
  let second :=
    {| response_content := [text_block "Done."]; stop_reason := "end_turn" |} in
  (question 0 <> ""
   /\ length (@nil Message) < MAX_HISTORY_MESSAGES
   /\ final (model w (requests w) ([] ++ [user_message (question 0)])) = Normal first
   /\ stop_reason first = "tool_use"
   /\ (forall msgs, final (model w (S (requests w)) msgs) = Normal second)
   /\ stop_reason second = "end_turn")
  /\ exists results w',
       api_chat APP_ID (question 0) [] w
         = (Normal (chat_ok (reply_of (response_content second))
                      ([] ++ [user_message (question 0); assistant_message first;
                              tool_results_message results;
                              assistant_message second])), w')
       /\ Forall2 answers (filter is_tool_use (response_content first)) results.
Proof.
  intros w first second.
  assert (Hq : question 0 <> "") by discriminate.
  assert (Hl : length (@nil Message) < MAX_HISTORY_MESSAGES)
    by (unfold MAX_HISTORY_MESSAGES; simpl; lia).
  assert (H2 : forall msgs, final (model w (S (requests w)) msgs) = Normal second)
    by (intros msgs; reflexivity).
  split; [repeat split; assumption|].
  exact (@one_tool_round_adds_four_messages Sample.engine APP_ID (question 0) [] w
           first second Hq Hl eq_refl eq_refl H2 eq_refl).
Defined.

Lemma endpoints_write_their_events_witness :
  let w := start healthy_backend one_tool_model in
  question 0 <> ""
  /\ (exists es terminal,
        extends w (snd (api_chat_stream APP_ID (question 0) [] w)) (es ++ [Send terminal])
        /\ forallb not_terminal es = true
        /\ is_terminal (Send terminal) = true)
  /\ exists es,
       extends w (snd (api_chat APP_ID (question 0) [] w)) es
       /\ forallb not_send es = true.
Proof.
  intros w.
  assert (Hq : question 0 <> "") by discriminate.
  split; [exact Hq|].
  exact (@endpoints_write_their_events Sample.engine APP_ID (question 0) [] w Hq).
Defined.

Lemma chatDirect_follows_the_server_witness :
  let w := start healthy_backend one_tool_model in
  length (@nil Message) <= 21
  /\ fst (chatDirect APP_ID (question 0) [] w)
     = (Normal tt, [asks 0; invokes 0; returns 0; concludes])
  /\ same_but_progress
       (snd (agentLoop APP_ID (trimHistory ([] ++ [user_message (question 0)])) None w))
       (snd (chatDirect APP_ID (question 0) [] w)).
Proof.
  intros w.
  assert (Hl : length (@nil Message) <= 21) by (simpl; lia).
  split; [exact Hl|].
  exact (@chatDirect_follows_the_server Sample.engine APP_ID (question 0) [] w Hl).
Defined.

Lemma get_retries_status_errors_witness :
  let w := start troubled_backend quiet_model in
  (2 < 3
   /\ (forall i, i < 2 -> failed (backend w (fetches w + i) (BASE ++ "/v1/apps/123")))
   /\ backend w (fetches w + 2) (BASE ++ "/v1/apps/123") = responds not_found
   /\ permanent not_found)
  /\ exists w1,
       get "/v1/apps/123" w = (Throw (Error "404 Not Found — no such app"), w1).
Proof.
  intros w.
  assert (F : forall i, i < 2 ->
            failed (backend w (fetches w + i) (BASE ++ "/v1/apps/123"))).
  { intros i Hi. destruct i as [|[|i]]; [reflexivity | reflexivity | lia]. }
  assert (P : permanent not_found) by (split; [reflexivity | discriminate]).
  split; [repeat split; [lia | exact F | discriminate]|].
  destruct (@get_retries_status_errors "/v1/apps/123" w 2 not_found
              (le_n 3) F eq_refl P)
    as (_ & before & wj & w1 & _ & _ & _ & _ & _ & T).
  exists w1. exact (T eq_refl).
Defined.

End MoreExamples.
